(** * Ticket-priority prototypes: the serving handler of Pipeline A
      (ai_priority/app.py, ai_priority/train_priority.py) and the text
      cleaning and inference of Pipeline B (training/train_model.py,
      training/predict_priority.py).

    Python values are embedded as follows.
    - [float] is IEEE binary64, through the Standard Library's executable
      specification [SpecFloat] ([prec = 53], [emax = 1024]).
    - [str] is a list of Unicode code points.
    - [dict] is an insertion-ordered association list with unique keys.
    - a call that may raise returns [result]. *)

From Stdlib Require Import ZArith List Bool Lia String Ascii.
From Stdlib Require Import Floats.SpecFloat.
Import ListNotations.

Local Open Scope Z_scope.

(** ** Exceptions and fallible computations *)

Inductive exn : Type :=
| ValueError
| OverflowError
| IndexError
| FileNotFoundError.

Inductive result (A : Type) : Type :=
| Ok (a : A)
| Raise (e : exn).

Arguments Ok {A} a.
Arguments Raise {A} e.

Definition rbind {A B : Type} (r : result A) (k : A -> result B) : result B :=
  match r with
  | Ok a => k a
  | Raise e => Raise e
  end.

(** ** Python built-ins *)

Module Py.

(** *** Strings *)

Definition char : Type := N.
Definition str : Type := list char.

Definition lit (s : string) : str := map N_of_ascii (list_ascii_of_string s).

Fixpoint str_eqb (a b : str) : bool :=
  match a, b with
  | [], [] => true
  | x :: a', y :: b' => N.eqb x y && str_eqb a' b'
  | _, _ => false
  end.

(** *** Floats (binary64) *)

Definition float : Type := spec_float.

Definition prec : Z := 53.
Definition emax : Z := 1024.

Definition is_float (x : float) : bool := valid_binary prec emax x.

Definition is_nan (x : float) : bool :=
  match x with S754_nan => true | _ => false end.

Definition is_finite (x : float) : bool :=
  match x with
  | S754_zero _ | S754_finite _ _ _ => true
  | S754_infinity _ | S754_nan => false
  end.

Definition flt (x y : float) : bool := SFltb x y.
Definition fle (x y : float) : bool := SFleb x y.
Definition fgt (x y : float) : bool := SFltb y x.
Definition fmul (x y : float) : float := SFmul prec emax x y.
Definition fdiv (x y : float) : float := SFdiv prec emax x y.
Definition fadd (x y : float) : float := SFadd prec emax x y.

(** [float(n)] for a small non-negative integer literal. *)
Definition of_pos (n : positive) : float := binary_round prec emax false n 0.

Definition f0 : float := S754_zero false.
Definition f1 : float := of_pos 1.
Definition f100 : float := of_pos 100.

(** *** [round(x)] with one argument: the nearest integer, ties to even;
    [ValueError] on NaN and [OverflowError] on an infinity. *)

Definition round_half_even (m : Z) (e : Z) : Z :=
  match e with
  | Zneg p =>
      let d := Z.pow_pos 2 p in
      let q := m / d in
      let r := m mod d in
      match 2 * r ?= d with
      | Lt => q
      | Gt => q + 1
      | Eq => if Z.even q then q else q + 1
      end
  | _ => m * 2 ^ e
  end.

Definition round (x : float) : result Z :=
  match x with
  | S754_zero _ => Ok 0
  | S754_finite s m e => Ok (cond_Zopp s (round_half_even (Zpos m) e))
  | S754_infinity _ => Raise OverflowError
  | S754_nan => Raise ValueError
  end.

(** *** [max(iterable)]: keeps the first item, replaces it when a later
    item compares strictly greater. *)

Definition max_step (acc x : float) : float := if fgt x acc then x else acc.

Definition max (l : list float) : result float :=
  match l with
  | [] => Raise ValueError
  | x :: r => Ok (fold_left max_step r x)
  end.

(** *** [sum(iterable)] of floats, left to right from the integer 0. *)

Definition sum (l : list float) : float := fold_left fadd l f0.

(** *** [list[i]] *)

Definition index {A : Type} (l : list A) (i : nat) : result A :=
  match nth_error l i with
  | Some a => Ok a
  | None => Raise IndexError
  end.

(** *** Dictionaries with string keys *)

Definition dict (V : Type) : Type := list (str * V).

Fixpoint dict_set {V : Type} (d : dict V) (k : str) (v : V) : dict V :=
  match d with
  | [] => [(k, v)]
  | (k', v') :: r =>
      if str_eqb k k' then (k', v) :: r else (k', v') :: dict_set r k v
  end.

Fixpoint dict_get {V : Type} (d : dict V) (k : str) : option V :=
  match d with
  | [] => None
  | (k', v') :: r => if str_eqb k k' then Some v' else dict_get r k
  end.

Definition keys {V : Type} (d : dict V) : list str := map fst d.
Definition values {V : Type} (d : dict V) : list V := map snd d.

(** [{k: v for k, v in items}] *)
Definition dict_of_items {V : Type} (items : list (str * V)) : dict V :=
  fold_left (fun d kv => dict_set d (fst kv) (snd kv)) items [].

End Py.

(** ** numpy reductions over a one-dimensional float64 array *)

Module Np.

Import Py.

(** [np.maximum(a, b)]: [a] when [a >= b] or [a] is NaN, else [b]. *)
Definition maximum (a b : float) : float :=
  if fle b a || is_nan a then a else b.

(** [arr.max()]: left-to-right reduction; an empty array raises. *)
Definition max (arr : list float) : result float :=
  match arr with
  | [] => Raise ValueError
  | x :: r => Ok (fold_left maximum r x)
  end.

(** [arr.argmax()]: the running maximum [mp] found at [best] is replaced by
    the element at index [i] when [not (x <= mp)]; the scan stops at the
    first NaN. *)
Fixpoint argmax_from (l : list float) (i : nat) (mp : float) (best : nat) : nat :=
  match l with
  | [] => best
  | x :: r =>
      if is_nan mp then best
      else if negb (fle x mp) then argmax_from r (S i) x i
      else argmax_from r (S i) mp best
  end.

Definition argmax (arr : list float) : result nat :=
  match arr with
  | [] => Raise ValueError
  | x :: r => Ok (argmax_from r 1 x 0)
  end.

End Np.

(** ** scikit-learn estimators, as fitted objects *)

Module Sk.

Import Py.

(** The one-row frame that the handler builds from a payload. *)
Record Frame : Type := {
  col_text : str;
  col_domain : str;
  col_vip : Z;
  col_spend30d : float;
  col_eta_to_sla_min : float
}.

(** What app.py uses of the loaded object: [classes_] and [predict_proba]. *)
Record Estimator : Type := {
  classes_ : list str;
  predict_proba : Frame -> result (list float)
}.

(** [TfidfVectorizer]: the fitted vocabulary and weights are opaque. *)
Record TfidfVectorizer : Type := {
  tfidf_transform : str -> list float
}.

(** [StandardScaler(with_mean=False)]: divides each column by its scale. *)
Record StandardScaler : Type := {
  scale_ : float * float
}.

Definition scaler_transform (sc : StandardScaler) (a b : float) : list float :=
  [fdiv a (fst (scale_ sc)); fdiv b (snd (scale_ sc))].

(** [OneHotEncoder(handle_unknown=...)] fitted on the columns
    [domain] and [vip]. *)
Inductive unknown_policy : Type := HandleError | HandleIgnore.

Record OneHotEncoder : Type := {
  handle_unknown : unknown_policy;
  categories_domain : list str;
  categories_vip : list Z
}.

Definition one_hot {A : Type} (eqb : A -> A -> bool) (cats : list A) (v : A)
  : list float :=
  map (fun c => if eqb c v then f1 else f0) cats.

Definition known {A : Type} (eqb : A -> A -> bool) (cats : list A) (v : A) : bool :=
  existsb (fun c => eqb c v) cats.

Definition encode_column {A : Type} (eqb : A -> A -> bool)
    (hu : unknown_policy) (cats : list A) (v : A) : result (list float) :=
  if known eqb cats v then Ok (one_hot eqb cats v)
  else match hu with
       | HandleError => Raise ValueError
       | HandleIgnore => Ok (map (fun _ => f0) cats)
       end.

Definition onehot_transform (enc : OneHotEncoder) (d : str) (v : Z)
  : result (list float) :=
  rbind (encode_column str_eqb (handle_unknown enc) (categories_domain enc) d)
    (fun bd =>
  rbind (encode_column Z.eqb (handle_unknown enc) (categories_vip enc) v)
    (fun bv => Ok (bd ++ bv))).

(** [ColumnTransformer([tfidf, num, cat])]: the blocks side by side. *)
Record ColumnTransformer : Type := {
  ct_tfidf : TfidfVectorizer;
  ct_num : StandardScaler;
  ct_cat : OneHotEncoder
}.

Definition ct_transform (ct : ColumnTransformer) (X : Frame) : result (list float) :=
  let bt := tfidf_transform (ct_tfidf ct) (col_text X) in
  let bn := scaler_transform (ct_num ct) (col_spend30d X) (col_eta_to_sla_min X) in
  rbind (onehot_transform (ct_cat ct) (col_domain X) (col_vip X))
    (fun bc => Ok (bt ++ bn ++ bc)).

(** A fitted probabilistic classifier: input validation (width, finite
    entries) is the library's; the probabilities themselves are opaque. *)
Record Classifier : Type := {
  clf_classes : list str;
  n_features_in_ : nat;
  clf_proba : list float -> list float
}.

Definition clf_predict_proba (c : Classifier) (x : list float) : result (list float) :=
  if negb (Nat.eqb (List.length x) (n_features_in_ c)) then Raise ValueError
  else if negb (forallb is_finite x) then Raise ValueError
  else Ok (clf_proba c x).

(** [Pipeline([("pre", pre), ("clf", clf)])] *)
Record Pipeline : Type := {
  pre : ColumnTransformer;
  clf : Classifier
}.

Definition pipeline_predict_proba (p : Pipeline) (X : Frame) : result (list float) :=
  rbind (ct_transform (pre p) X) (clf_predict_proba (clf p)).

Definition estimator_of (p : Pipeline) : Estimator :=
  {| classes_ := clf_classes (clf p);
     predict_proba := pipeline_predict_proba p |}.

End Sk.

(** ** ai_priority/train_priority.py: the pipeline that is fitted and saved *)

Module TrainPriority.

Import Py.

Definition MODEL_PATH : str := lit "priority_model.joblib".

(** What [fit] learns; the script fixes everything else. *)
Record Learned : Type := {
  learned_tfidf : Sk.TfidfVectorizer;
  learned_scale : float * float;
  learned_domains : list str;
  learned_vips : list Z;
  learned_clf : Sk.Classifier
}.

(** [pre = ColumnTransformer([("tfidf", ...), ("num", ...),
    ("cat", OneHotEncoder(handle_unknown="ignore"), cat_cols)])] *)
Definition pre (l : Learned) : Sk.ColumnTransformer :=
  {| Sk.ct_tfidf := learned_tfidf l;
     Sk.ct_num := {| Sk.scale_ := learned_scale l |};
     Sk.ct_cat := {| Sk.handle_unknown := Sk.HandleIgnore;
                     Sk.categories_domain := learned_domains l;
                     Sk.categories_vip := learned_vips l |} |}.

(** [pipe = Pipeline([("pre", pre), ("clf", clf)])], after [pipe.fit]. *)
Definition pipe (l : Learned) : Sk.Pipeline :=
  {| Sk.pre := pre l; Sk.clf := learned_clf l |}.

End TrainPriority.

(** ** ai_priority/app.py *)

Module App.

Import Py.

Record Payload : Type := {
  text : str;
  domain : str;
  vip : Z;
  spend30d : float;
  eta_to_sla_min : float
}.

Record Response : Type := {
  priority : str;
  score : Z;
  proba : dict float;
  needs_review : bool;
  model : str
}.

(** The process: the artifacts on disk as [joblib.load] sees them, the
    number of loads performed so far, and the module-level globals. *)
Record Process : Type := {
  disk : str -> option Sk.Estimator;
  loads : nat;
  pipe : Sk.Estimator;
  LABELS : list str;
  THRESH_NEEDS_REVIEW : float
}.

(** [0.55]: the float nearest to 55/100. *)
Definition thresh_literal : float := fdiv (of_pos 55) (of_pos 100).

(** Module import, lines 6 to 9. *)
Definition startup (d : str -> option Sk.Estimator) : result Process :=
  match d (lit "priority_model.joblib") with
  | None => Raise FileNotFoundError
  | Some m =>
      Ok {| disk := d;
            loads := 1;
            pipe := m;
            LABELS := Sk.classes_ m;
            THRESH_NEEDS_REVIEW := thresh_literal |}
  end.

(** Handlers run in the process and may raise. *)
Definition M (A : Type) : Type := Process -> Process * result A.

Definition ret {A : Type} (a : A) : M A := fun s => (s, Ok a).

Definition bind {A B : Type} (m : M A) (k : A -> M B) : M B :=
  fun s =>
    match m s with
    | (s', Ok a) => k a s'
    | (s', Raise e) => (s', Raise e)
    end.

Definition global {A : Type} (f : Process -> A) : M A := fun s => (s, Ok (f s)).

Definition lift {A : Type} (r : result A) : M A := fun s => (s, r).

Notation "x <- m ;; k" := (bind m (fun x => k))
  (at level 61, m at next level, right associativity).

(** [pd.DataFrame([{...}])] of the five fields. *)
Definition frame (p : Payload) : Sk.Frame :=
  {| Sk.col_text := text p;
     Sk.col_domain := domain p;
     Sk.col_vip := vip p;
     Sk.col_spend30d := spend30d p;
     Sk.col_eta_to_sla_min := eta_to_sla_min p |}.

Definition predict (p : Payload) : M Response :=
  let X := frame p in
  pipe_ <- global pipe ;;
  proba_ <- lift (Sk.predict_proba pipe_ X) ;;
  score_ <- lift (Np.max proba_) ;;
  labels <- global LABELS ;;
  i <- lift (Np.argmax proba_) ;;
  label <- lift (index labels i) ;;
  thresh <- global THRESH_NEEDS_REVIEW ;;
  let needs_review_ := flt score_ thresh in
  rounded <- lift (round (fmul f100 score_)) ;;
  labels' <- global LABELS ;;
  ret {| priority := label;
         score := rounded;
         proba := dict_of_items (combine labels' proba_);
         needs_review := needs_review_;
         model := lit "tfidf_logreg_v1" |}.

(** The server: requests are handled one after the other. *)
Fixpoint serve (reqs : list Payload) (s : Process) : Process * list (result Response) :=
  match reqs with
  | [] => (s, [])
  | p :: rest =>
      let (s1, r) := predict p s in
      let (s2, rs) := serve rest s1 in
      (s2, r :: rs)
  end.

End App.

(** ** The parts of the Python runtime that the text scripts read: the
    Unicode tables behind [str.lower], the regular expression class [\w]
    and [str.split], and the stop-word corpus fetched by nltk. *)

Record Runtime : Type := {
  str_lower : Py.str -> Py.str;
  re_word : Py.char -> bool;
  str_isspace : Py.char -> bool;
  nltk_stopwords : Py.str -> list Py.str
}.

Module Text.

Import Py.

Definition SPACE : char := 32%N.

Section Tables.

Variable rt : Runtime.

(** [re.sub(r'\W+', ' ', text)]: scanning left to right, a match starts at
    the first non-word character and extends over all that follow it;
    [in_match] tells that the replacement for the current match is out. *)
Fixpoint sub_nonword_from (in_match : bool) (s : str) : str :=
  match s with
  | [] => []
  | c :: r =>
      if re_word rt c then c :: sub_nonword_from false r
      else if in_match then sub_nonword_from true r
      else SPACE :: sub_nonword_from true r
  end.

Definition sub_nonword (s : str) : str := sub_nonword_from false s.

(** [text.split()]: skip white space, then collect up to the next white
    space; [cur] is the token being collected, last character first. *)
Definition flush (cur : str) (out : list str) : list str :=
  match cur with
  | [] => out
  | _ :: _ => rev cur :: out
  end.

Fixpoint split_from (cur : str) (s : str) : list str :=
  match s with
  | [] => flush cur []
  | c :: r =>
      if str_isspace rt c then flush cur (split_from [] r)
      else split_from (c :: cur) r
  end.

Definition split (s : str) : list str := split_from [] s.

End Tables.

(** [sep.join(words)] *)
Fixpoint join (sep : str) (words : list str) : str :=
  match words with
  | [] => []
  | w :: rest =>
      match rest with
      | [] => w
      | _ :: _ => w ++ sep ++ join sep rest
      end
  end.

(** [w in words] *)
Definition contains (words : list str) (w : str) : bool :=
  existsb (fun x => str_eqb x w) words.

End Text.

(** ** training/train_model.py *)

Module TrainModel.

Import Py.

Section Script.

Variable rt : Runtime.

Definition spanish_stopwords : list str := nltk_stopwords rt (lit "spanish").

Definition clean_text (text : str) : str :=
  let text := str_lower rt text in
  let text := Text.sub_nonword rt text in
  let words := Text.split rt text in
  let words := filter (fun w => negb (Text.contains spanish_stopwords w)) words in
  Text.join (lit " ") words.

End Script.

End TrainModel.

(** ** training/predict_priority.py *)

Module PredictPriority.

Import Py.

Section Script.

Variable rt : Runtime.

Definition spanish_stopwords : list str := nltk_stopwords rt (lit "spanish").

Definition clean_text (text : str) : str :=
  let text := str_lower rt text in
  let text := Text.sub_nonword rt text in
  let words := Text.split rt text in
  let words := filter (fun w => negb (Text.contains spanish_stopwords w)) words in
  Text.join (lit " ") words.

(** The two artifacts loaded at import. *)
Variable clf : Sk.Classifier.
Variable vectorizer : Sk.TfidfVectorizer.

(** [clf.predict(X)] on a matrix of rows: validated probabilities, then
    [classes_.take(argmax)] row by row. *)
Fixpoint clf_predict (X : list (list float)) : result (list str) :=
  match X with
  | [] => Ok []
  | x :: rest =>
      rbind (Sk.clf_predict_proba clf x) (fun pr =>
      rbind (Np.argmax pr) (fun i =>
      rbind (index (Sk.clf_classes clf) i) (fun lab =>
      rbind (clf_predict rest) (fun labs => Ok (lab :: labs)))))
  end.

Definition predict_priority (issue_text : str) : result str :=
  let issue_clean := clean_text issue_text in
  let vect := [Sk.tfidf_transform vectorizer issue_clean] in
  rbind (clf_predict vect) (fun pred => index pred 0).

End Script.

End PredictPriority.

(** ** The cleaning steps as the specification words them *)

Module CleanSpec.

Import Py.

(** The maximal runs of [s] on which [p] is constant, each with its value. *)
Fixpoint runs (p : char -> bool) (s : str) : list (bool * str) :=
  match s with
  | [] => []
  | c :: r =>
      match runs p r with
      | (b, w) :: rest =>
          if Bool.eqb b (p c) then (b, c :: w) :: rest
          else (p c, [c]) :: (b, w) :: rest
      | [] => [(p c, [c])]
      end
  end.

Fixpoint intersperse {A : Type} (sep : A) (l : list A) : list A :=
  match l with
  | [] => []
  | x :: rest =>
      match rest with
      | [] => [x]
      | _ :: _ => x :: sep :: intersperse sep rest
      end
  end.

Section Words.

Variable rt : Runtime.

(** "replace all non-word-character runs with a single space" *)
Definition collapse_nonword (s : str) : str :=
  List.concat (map (fun bw : bool * str => if fst bw then snd bw else [Text.SPACE])
              (runs (re_word rt) s)).

(** "split on whitespace": the maximal runs of non-space characters *)
Definition tokens (s : str) : list str :=
  map snd (filter (fun bw : bool * str => negb (fst bw)) (runs (str_isspace rt) s)).

(** "drop tokens present in a fixed Spanish stopword list" *)
Definition drop_stopwords (ws : list str) : list str :=
  filter (fun w => if in_dec (list_eq_dec N.eq_dec) w (nltk_stopwords rt (lit "spanish"))
                   then false else true) ws.

(** "rejoin with single spaces" *)
Definition rejoin (ws : list str) : str := List.concat (intersperse [Text.SPACE] ws).

Definition clean_text_spec (s : str) : str :=
  rejoin (drop_stopwords (tokens (collapse_nonword (str_lower rt s)))).

End Words.

End CleanSpec.

(** ** The order of binary64 values, as a lexicographic key *)

Module FloatOrder.

Import Py.

Definition key (x : float) : Z * Z * Z :=
  match x with
  | S754_zero _ => (0, 0, 0)
  | S754_nan => (0, 0, 0)
  | S754_infinity false => (2, 0, 0)
  | S754_infinity true => (-2, 0, 0)
  | S754_finite false m e => (1, e, Zpos m)
  | S754_finite true m e => (-1, - e, Zneg m)
  end.

Definition lexcmp (a b : Z * Z * Z) : comparison :=
  match fst (fst a) ?= fst (fst b) with
  | Eq =>
      match snd (fst a) ?= snd (fst b) with
      | Eq => snd a ?= snd b
      | c => c
      end
  | c => c
  end.

Definition no_nan (l : list float) : Prop := Forall (fun x => is_nan x = false) l.

End FloatOrder.

(** ** What the handler relies on from a fitted estimator, as checks *)

Module Contract.

Import Py.

Fixpoint distinct (l : list str) : bool :=
  match l with
  | [] => true
  | x :: r => negb (existsb (str_eqb x) r) && distinct r
  end.

Definition nonempty {A : Type} (l : list A) : bool :=
  match l with [] => false | _ :: _ => true end.

(** One probability per class, classes pairwise distinct, no NaN. *)
Definition row_ok (labels : list str) (probs : list float) : bool :=
  distinct labels
  && Nat.eqb (List.length probs) (List.length labels)
  && nonempty probs
  && forallb (fun x => negb (is_nan x)) probs.

(** A binary64 value between 0 and 1. *)
Definition prob01 (x : float) : bool := is_float x && fle f0 x && fle x f1.

(** [abs(sum(l) - 1.0) <= tol], the sum taken left to right. *)
Definition sums_to_one (tol : float) (l : list float) : bool :=
  fle (SFabs (SFsub prec emax (sum l) f1)) tol.

(** A fitted Pipeline A: the vocabulary block has a fixed width and finite
    weights, the classifier was fitted on the width of the whole feature
    row, and on every finite row of that width it returns one probability
    in [0, 1] per class. *)
Definition fitted (l : TrainPriority.Learned) : Prop :=
  (forall t,
     (List.length (Sk.tfidf_transform (TrainPriority.learned_tfidf l) t) + 2
      + List.length (TrainPriority.learned_domains l)
      + List.length (TrainPriority.learned_vips l))%nat
     = Sk.n_features_in_ (TrainPriority.learned_clf l)) /\
  (forall t,
     forallb is_finite (Sk.tfidf_transform (TrainPriority.learned_tfidf l) t) = true) /\
  (forall x,
     List.length x = Sk.n_features_in_ (TrainPriority.learned_clf l) ->
     forallb is_finite x = true ->
     row_ok (Sk.clf_classes (TrainPriority.learned_clf l))
            (Sk.clf_proba (TrainPriority.learned_clf l) x) = true /\
     forallb prob01 (Sk.clf_proba (TrainPriority.learned_clf l) x) = true).

(** A matching pair for Pipeline B: the vectorizer produces finite rows of
    the width the classifier was fitted on, and the classifier returns one
    probability per class of a non-empty label set. *)
Definition matching (clf : Sk.Classifier) (vectorizer : Sk.TfidfVectorizer) : Prop :=
  (forall t, List.length (Sk.tfidf_transform vectorizer t) = Sk.n_features_in_ clf) /\
  (forall t, forallb is_finite (Sk.tfidf_transform vectorizer t) = true) /\
  (forall x, List.length (Sk.clf_proba clf x) = List.length (Sk.clf_classes clf)) /\
  nonempty (Sk.clf_classes clf) = true.

(** A handler leaves the process as it found it. *)
Definition preserves {A : Type} (m : App.M A) : Prop := forall s, fst (m s) = s.

End Contract.

(** ** A small fitted pipeline and an ASCII runtime, for closed instances *)

Module Demo.

Import Py.

Definition half : float := S754_finite false 4503599627370496 (-53).
Definition quarter : float := S754_finite false 4503599627370496 (-54).

Definition labels : list str := [lit "high"; lit "low"; lit "medium"].

(** Two vocabulary columns, two numeric columns, [domain] in {m, rb},
    [vip] in {0, 1}: eight features. *)
Definition learned : TrainPriority.Learned :=
  {| TrainPriority.learned_tfidf := {| Sk.tfidf_transform := fun _ => [f0; half] |};
     TrainPriority.learned_scale := (f100, f1);
     TrainPriority.learned_domains := [lit "m"; lit "rb"];
     TrainPriority.learned_vips := [0; 1];
     TrainPriority.learned_clf :=
       {| Sk.clf_classes := labels;
          Sk.n_features_in_ := 8;
          Sk.clf_proba := fun _ => [quarter; half; quarter] |} |}.

Definition estimator : Sk.Estimator := Sk.estimator_of (TrainPriority.pipe learned).

Definition disk (path : str) : option Sk.Estimator :=
  if str_eqb path TrainPriority.MODEL_PATH then Some estimator else None.

Definition process : App.Process :=
  {| App.disk := disk;
     App.loads := 1;
     App.pipe := estimator;
     App.LABELS := labels;
     App.THRESH_NEEDS_REVIEW := App.thresh_literal |}.

Definition ticket : App.Payload :=
  {| App.text := lit "No funciona el aire";
     App.domain := lit "rb";
     App.vip := 1;
     App.spend30d := f100;
     App.eta_to_sla_min := half |}.

(** The same ticket from a domain that training never saw. *)
Definition stray_ticket : App.Payload :=
  {| App.text := lit "No funciona el aire";
     App.domain := lit "spa";
     App.vip := 1;
     App.spend30d := f100;
     App.eta_to_sla_min := half |}.

(** The same fitted parts behind an encoder with the library's default
    policy for unknown categories. *)
Definition strict_estimator : Sk.Estimator :=
  Sk.estimator_of
    {| Sk.pre :=
         {| Sk.ct_tfidf := TrainPriority.learned_tfidf learned;
            Sk.ct_num := {| Sk.scale_ := TrainPriority.learned_scale learned |};
            Sk.ct_cat := {| Sk.handle_unknown := Sk.HandleError;
                            Sk.categories_domain := TrainPriority.learned_domains learned;
                            Sk.categories_vip := TrainPriority.learned_vips learned |} |};
       Sk.clf := TrainPriority.learned_clf learned |}.

(** 0.005 as a float: slightly above the decimal. *)
Definition five_thousandths : float := S754_finite false 5764607523034235 (-60).

Definition reply : App.Response :=
  {| App.priority := lit "low";
     App.score := 50;
     App.proba := [(lit "high", quarter); (lit "low", half); (lit "medium", quarter)];
     App.needs_review := true;
     App.model := lit "tfidf_logreg_v1" |}.

End Demo.

(** ** Rounding to binary64: what the proofs track *)

Module Rounding.

Import Py.

(** [mrs] is [m] shifted right by [k] bits, with its round and sticky bits. *)
Definition shifted (m k : Z) (mrs : shr_record) : Prop :=
  exists rem,
    0 <= shr_m mrs /\ 0 <= rem < 2 ^ k /\
    m = shr_m mrs * 2 ^ k + rem /\
    (rem = 0 <-> shr_r mrs = false /\ shr_s mrs = false).

(** A non-negative float that is at most 100. *)
Definition le100 (x : float) : Prop :=
  match x with
  | S754_zero _ => True
  | S754_finite false m e => e <= 0 /\ Zpos m <= 100 * 2 ^ (- e)
  | _ => False
  end.

End Rounding.

(** ** An ASCII runtime and a small fitted pair for Pipeline B *)

Module DemoText.

Import Py.

Definition in_range (lo hi c : N) : bool := (N.leb lo c && N.leb c hi)%bool.

Definition ascii_lower (s : str) : str :=
  map (fun c => if in_range 65 90 c then (c + 32)%N else c) s.

Definition ascii_word (c : char) : bool :=
  in_range 48 57 c || in_range 65 90 c || in_range 97 122 c || N.eqb c 95.

Definition ascii_space (c : char) : bool :=
  in_range 9 13 c || in_range 28 32 c.

Definition ascii_lowered (c : char) : bool := negb (in_range 65 90 c).

Definition runtime : Runtime :=
  {| str_lower := ascii_lower;
     re_word := ascii_word;
     str_isspace := ascii_space;
     nltk_stopwords := fun _ => [lit "el"; lit "la"; lit "en"; lit "no"; lit "de"] |}.

Definition vectorizer : Sk.TfidfVectorizer :=
  {| Sk.tfidf_transform := fun _ => [Demo.half; f0] |}.

Definition forest : Sk.Classifier :=
  {| Sk.clf_classes := [lit "alta"; lit "baja"];
     Sk.n_features_in_ := 2;
     Sk.clf_proba := fun _ => [Demo.quarter; Demo.half] |}.

Definition ejemplo : str := lit "El aire acondicionado no funciona en la habitacion 101".

End DemoText.

(** ** Cleaned text: what a second pass relies on *)

Module Cleaned.

Import Py.

(** A token as [split] leaves it after the substitution: non-empty, of word
    characters only, without white space. *)
Definition token (rt : Runtime) (t : str) : bool :=
  Contract.nonempty t
  && forallb (re_word rt) t
  && forallb (fun c => negb (str_isspace rt c)) t.

(** The facts about the runtime tables that matter: [lowered] marks the
    code points that [str.lower] produces, a string of such code points is
    its own lowercase, and the space is lowered, white, and not a word
    character. *)
Definition tables_ok (rt : Runtime) (lowered : char -> bool) : Prop :=
  (forall x, forallb lowered (str_lower rt x) = true) /\
  (forall t, forallb lowered t = true -> str_lower rt t = t) /\
  lowered Text.SPACE = true /\
  re_word rt Text.SPACE = false /\
  str_isspace rt Text.SPACE = true.

End Cleaned.

(** ** Integer bounds on a float's value *)

Module Bounds.
Import Py.
(** A non-negative float whose value is at most the integer [K]. *)
Definition at_most (K : Z) (x : float) : Prop :=
  match x with
  | S754_zero _ => True
  | S754_finite false m e => e <= 0 /\ Zpos m <= K * 2 ^ (- e)
  | _ => False
  end.

(** A positive finite float whose value is at least the integer [K]. *)
Definition at_least (K : Z) (x : float) : Prop :=
  match x with
  | S754_finite false m e => e <= 0 /\ K * 2 ^ (- e) <= Zpos m
  | _ => False
  end.
End Bounds.

(** ** What a dictionary comprehension keeps of its items *)

Module Items.

Import Py.

(** The value paired with the last occurrence of [k] among the items. *)
Definition last_value {V : Type} (items : list (str * V)) (k : str) : option V :=
  fold_left (fun acc kv => if str_eqb k (fst kv) then Some (snd kv) else acc)
            items None.

End Items.

(** ** Estimators with degenerate rows, and processes around them *)

Module DemoEdge.

Import Py.

Definition process_of (m : Sk.Estimator) : App.Process :=
  {| App.disk := fun _ => Some m;
     App.loads := 1;
     App.pipe := m;
     App.LABELS := Sk.classes_ m;
     App.THRESH_NEEDS_REVIEW := App.thresh_literal |}.

Definition nan_row : list float := [Demo.quarter; S754_nan; Demo.half].
Definition inf_row : list float := [Demo.quarter; S754_infinity false; Demo.half].

Definition nan_estimator : Sk.Estimator :=
  {| Sk.classes_ := Demo.labels; Sk.predict_proba := fun _ => Ok nan_row |}.

Definition inf_estimator : Sk.Estimator :=
  {| Sk.classes_ := Demo.labels; Sk.predict_proba := fun _ => Ok inf_row |}.

(** A loaded object whose class list repeats a label. *)
Definition repeated_estimator : Sk.Estimator :=
  {| Sk.classes_ := [lit "low"; lit "high"; lit "low"];
     Sk.predict_proba := fun _ => Ok [Demo.quarter; Demo.half; f0] |}.

Definition repeated_reply : App.Response :=
  {| App.priority := lit "high";
     App.score := 50;
     App.proba := [(lit "low", f0); (lit "high", Demo.half)];
     App.needs_review := true;
     App.model := lit "tfidf_logreg_v1" |}.

(** The demo ticket with a [vip] value that training never saw. *)
Definition odd_vip_ticket : App.Payload :=
  {| App.text := App.text Demo.ticket;
     App.domain := App.domain Demo.ticket;
     App.vip := 7;
     App.spend30d := App.spend30d Demo.ticket;
     App.eta_to_sla_min := App.eta_to_sla_min Demo.ticket |}.

Definition other_odd_vip_ticket : App.Payload :=
  {| App.text := App.text Demo.ticket;
     App.domain := lit "spa";
     App.vip := -3;
     App.spend30d := App.spend30d Demo.ticket;
     App.eta_to_sla_min := App.eta_to_sla_min Demo.ticket |}.

Definition stray_odd_vip_ticket : App.Payload :=
  {| App.text := App.text Demo.ticket;
     App.domain := lit "gym";
     App.vip := 7;
     App.spend30d := App.spend30d Demo.ticket;
     App.eta_to_sla_min := App.eta_to_sla_min Demo.ticket |}.

End DemoEdge.

(** * Properties *)

(** ** Comparison of floats *)

Module FloatOrderFacts.

Import Py FloatOrder.

Lemma compare_key (x y : float) :
  is_nan x = false -> is_nan y = false ->
  SFcompare x y = Some (lexcmp (key x) (key y)).
Proof.
  destruct x as [sx|sx| |sx mx ex], y as [sy|sy| |sy my ey];
    simpl; try discriminate; intros _ _;
    try (destruct sx; reflexivity); try (destruct sy; reflexivity);
    try (destruct sx, sy; reflexivity).
  destruct sx, sy; unfold lexcmp; simpl; try reflexivity.
  rewrite Z.compare_opp, (Z.compare_antisym ex ey).
  destruct (ex ?= ey); reflexivity.
Qed.

Ltac lex_solve :=
  unfold lexcmp;
  repeat match goal with
         | |- context [Z.compare ?a ?b] => destruct (Z.compare_spec a b)
         | H : context [Z.compare ?a ?b] |- _ => destruct (Z.compare_spec a b)
         end;
  try discriminate; try congruence; try lia.

Lemma lexcmp_refl a : lexcmp a a = Eq.
Proof. lex_solve. Qed.

Lemma lexcmp_antisym a b : lexcmp b a = CompOpp (lexcmp a b).
Proof. lex_solve; reflexivity. Qed.

Lemma lexcmp_lt_trans a b c : lexcmp a b <> Gt -> lexcmp b c = Lt -> lexcmp a c = Lt.
Proof. lex_solve. Qed.

Lemma fle_key x y : is_nan x = false -> is_nan y = false ->
  fle x y = negb (match lexcmp (key x) (key y) with Gt => true | _ => false end).
Proof.
  intros Hx Hy. unfold fle, SFleb. rewrite (compare_key x y Hx Hy).
  destruct (lexcmp (key x) (key y)); reflexivity.
Qed.

Lemma flt_key x y : is_nan x = false -> is_nan y = false ->
  flt x y = match lexcmp (key x) (key y) with Lt => true | _ => false end.
Proof.
  intros Hx Hy. unfold flt, SFltb. rewrite (compare_key x y Hx Hy).
  destruct (lexcmp (key x) (key y)); reflexivity.
Qed.

(** [x <= y] fails exactly when [y < x], NaN apart. *)
Lemma fle_false_flt x y : is_nan x = false -> is_nan y = false ->
  negb (fle x y) = flt y x.
Proof.
  intros Hx Hy. rewrite (fle_key x y Hx Hy), (flt_key y x Hy Hx).
  rewrite (lexcmp_antisym (key x) (key y)).
  destruct (lexcmp (key x) (key y)); reflexivity.
Qed.

Lemma fle_refl x : is_nan x = false -> fle x x = true.
Proof. intros H. rewrite (fle_key x x H H), lexcmp_refl. reflexivity. Qed.

Lemma flt_fle x y : flt x y = true -> fle x y = true.
Proof.
  unfold flt, fle, SFltb, SFleb. destruct (SFcompare x y) as [[]|]; congruence.
Qed.

Lemma flt_not_nan x y : flt x y = true -> is_nan x = false /\ is_nan y = false.
Proof. destruct x, y; simpl; try discriminate; auto. Qed.

Lemma fle_not_nan x y : fle x y = true -> is_nan x = false /\ is_nan y = false.
Proof. destruct x, y; simpl; try discriminate; auto. Qed.

Lemma fle_flt_trans x y z : is_nan x = false ->
  fle x y = true -> flt y z = true -> flt x z = true.
Proof.
  intros Hx Hxy Hyz.
  destruct (flt_not_nan _ _ Hyz) as [Hy Hz].
  rewrite (fle_key x y Hx Hy) in Hxy. rewrite (flt_key y z Hy Hz) in Hyz.
  rewrite (flt_key x z Hx Hz).
  assert (H1 : lexcmp (key x) (key y) <> Gt)
    by (destruct (lexcmp (key x) (key y)); simpl in Hxy; congruence).
  assert (H2 : lexcmp (key y) (key z) = Lt)
    by (destruct (lexcmp (key y) (key z)); congruence).
  rewrite (lexcmp_lt_trans _ _ _ H1 H2). reflexivity.
Qed.

End FloatOrderFacts.

(** ** Strings and dictionaries *)

Module DictFacts.

Import Py.

Lemma str_eqb_eq a b : str_eqb a b = true <-> a = b.
Proof.
  revert b. induction a as [|x a IH]; intros [|y b]; simpl; split;
    try discriminate; try reflexivity.
  - intros H. apply andb_prop in H. destruct H as [H1 H2].
    apply N.eqb_eq in H1. apply IH in H2. congruence.
  - intros H. inversion H; subst. rewrite N.eqb_refl. simpl. apply IH. reflexivity.
Qed.

Lemma str_eqb_refl a : str_eqb a a = true.
Proof. apply str_eqb_eq. reflexivity. Qed.

Lemma str_eqb_neq a b : a <> b -> str_eqb a b = false.
Proof.
  intros H. destruct (str_eqb a b) eqn:E; [|reflexivity].
  apply str_eqb_eq in E. contradiction.
Qed.

Lemma distinct_NoDup l : Contract.distinct l = true -> NoDup l.
Proof.
  induction l as [|x r IH]; simpl; intros H; constructor.
  - apply andb_prop in H. destruct H as [H _]. intros Hin.
    apply negb_true_iff in H.
    assert (E : existsb (str_eqb x) r = true).
    { apply existsb_exists. exists x. split; [exact Hin | apply str_eqb_refl]. }
    congruence.
  - apply IH. apply andb_prop in H. tauto.
Qed.

Section Dict.

Context {V : Type}.

Lemma dict_set_fresh (d : dict V) k v :
  ~ In k (keys d) -> dict_set d k v = d ++ [(k, v)].
Proof.
  induction d as [|[k' v'] r IH]; simpl; intros H; [reflexivity|].
  rewrite str_eqb_neq by (intros ->; apply H; left; reflexivity).
  rewrite IH by tauto. reflexivity.
Qed.

Lemma keys_app (d1 d2 : dict V) : keys (d1 ++ d2) = keys d1 ++ keys d2.
Proof. unfold keys. apply map_app. Qed.

Lemma fold_dict_set_fresh (items d : dict V) :
  NoDup (keys d ++ keys items) ->
  fold_left (fun d kv => dict_set d (fst kv) (snd kv)) items d = d ++ items.
Proof.
  revert d. induction items as [|[k v] r IH]; simpl; intros d H.
  - rewrite app_nil_r. reflexivity.
  - rewrite dict_set_fresh.
    + rewrite IH.
      * rewrite <- app_assoc. reflexivity.
      * rewrite keys_app. simpl. rewrite <- app_assoc. exact H.
    + intros Hin. apply NoDup_remove_2 in H. apply H.
      apply in_or_app. left. exact Hin.
Qed.

Lemma keys_combine (ks : list str) (vs : list V) :
  List.length vs = List.length ks -> keys (combine ks vs) = ks.
Proof.
  revert vs. induction ks as [|k r IH]; intros [|v vs]; simpl; try discriminate;
    intros H; [reflexivity|].
  f_equal. apply IH. congruence.
Qed.

Lemma values_combine (ks : list str) (vs : list V) :
  List.length vs = List.length ks -> values (combine ks vs) = vs.
Proof.
  revert vs. induction ks as [|k r IH]; intros [|v vs]; simpl; try discriminate;
    intros H; [reflexivity|].
  f_equal. apply IH. congruence.
Qed.

(** The dictionary built from distinct labels is the zip itself. *)
Lemma dict_of_zip (ks : list str) (vs : list V) :
  NoDup ks -> List.length vs = List.length ks ->
  dict_of_items (combine ks vs) = combine ks vs.
Proof.
  intros Hnd Hlen. unfold dict_of_items.
  rewrite fold_dict_set_fresh; [reflexivity|].
  simpl. rewrite keys_combine by exact Hlen. exact Hnd.
Qed.

Lemma dict_get_combine (ks : list str) (vs : list V) i k v :
  NoDup ks ->
  nth_error ks i = Some k -> nth_error vs i = Some v ->
  dict_get (combine ks vs) k = Some v.
Proof.
  revert vs i. induction ks as [|k0 r IH]; intros vs i Hnd Hk Hv.
  - destruct i; discriminate.
  - destruct vs as [|v0 vs]; [destruct i; discriminate|].
    inversion Hnd as [|? ? Hnotin Hnd']; subst. simpl.
    destruct i as [|i]; simpl in Hk, Hv.
    + inversion Hk; inversion Hv; subst. rewrite str_eqb_refl. reflexivity.
    + rewrite str_eqb_neq.
      * apply (IH vs i); assumption.
      * intros ->. apply Hnotin. apply (nth_error_In _ _ Hk).
Qed.

Lemma dict_get_combine_inv (ks : list str) (vs : list V) k v :
  dict_get (combine ks vs) k = Some v ->
  exists i, nth_error ks i = Some k /\ nth_error vs i = Some v.
Proof.
  revert vs. induction ks as [|k0 r IH]; intros vs H; [discriminate|].
  destruct vs as [|v0 vs]; [discriminate|]. simpl in H.
  destruct (str_eqb k k0) eqn:E.
  - apply str_eqb_eq in E. inversion H; subst. exists 0%nat. split; reflexivity.
  - destruct (IH vs H) as [i [Hk Hv]]. exists (S i). split; assumption.
Qed.

End Dict.

End DictFacts.

(** ** The numpy reductions *)

Module NpFacts.

Import Py FloatOrder FloatOrderFacts.

Lemma maximum_max_step a b :
  is_nan a = false -> is_nan b = false -> Np.maximum a b = max_step a b.
Proof.
  intros Ha Hb. unfold Np.maximum, max_step, fgt. rewrite Ha, orb_false_r.
  fold (flt a b). rewrite <- (fle_false_flt b a Hb Ha).
  destruct (fle b a); reflexivity.
Qed.

Lemma maximum_not_nan a b :
  is_nan a = false -> is_nan b = false -> is_nan (Np.maximum a b) = false.
Proof. intros Ha Hb. unfold Np.maximum. destruct (fle b a || is_nan a); assumption. Qed.

Lemma fold_maximum_max_step r a :
  is_nan a = false -> no_nan r -> fold_left Np.maximum r a = fold_left max_step r a.
Proof.
  revert a. induction r as [|x r IH]; simpl; intros a Ha Hr; [reflexivity|].
  inversion Hr; subst.
  rewrite <- (maximum_max_step a x) by assumption.
  apply IH; [apply maximum_not_nan|]; assumption.
Qed.

(** Without NaN, [arr.max()] and the built-in [max] return the same item. *)
Lemma np_max_py_max l : no_nan l -> Np.max l = Py.max l.
Proof.
  destruct l as [|x r]; intros H; [reflexivity|]. inversion H; subst. simpl.
  f_equal. apply fold_maximum_max_step; assumption.
Qed.

(** The scan of [argmax], started after the prefix [pre] whose first
    maximum [mp] sits at [best]. *)
Lemma argmax_from_spec r : forall pre mp best,
  no_nan r -> is_nan mp = false ->
  nth_error pre best = Some mp ->
  (forall j y, nth_error pre j = Some y -> fle y mp = true) ->
  (forall j y, (j < best)%nat -> nth_error pre j = Some y -> flt y mp = true) ->
  let i := Np.argmax_from r (List.length pre) mp best in
  let m := fold_left Np.maximum r mp in
  nth_error (pre ++ r) i = Some m /\
  (forall j y, nth_error (pre ++ r) j = Some y -> fle y m = true) /\
  (forall j y, (j < i)%nat -> nth_error (pre ++ r) j = Some y -> flt y m = true).
Proof.
  induction r as [|x r IH]; intros pre mp best Hr Hmp Hbest Hle Hlt; simpl.
  - rewrite app_nil_r. auto.
  - inversion Hr as [|? ? Hx Hr']; subst. rewrite Hmp.
    unfold Np.maximum. rewrite Hmp, orb_false_r.
    assert (Hpre : forall j y, nth_error pre j = Some y -> is_nan y = false).
    { intros j y Hj. apply (fle_not_nan _ _ (Hle j y Hj)). }
    assert (Hlen : List.length (pre ++ [x]) = S (List.length pre)).
    { rewrite length_app. simpl. lia. }
    replace (pre ++ x :: r) with ((pre ++ [x]) ++ r)
      by (rewrite <- app_assoc; reflexivity).
    rewrite <- Hlen.
    destruct (fle x mp) eqn:E; simpl.
    + apply IH; try assumption.
      * rewrite nth_error_app1; [exact Hbest|].
        apply nth_error_Some. congruence.
      * intros j y Hj.
        destruct (Nat.lt_ge_cases j (List.length pre)) as [Hjl|Hjl].
        -- rewrite nth_error_app1 in Hj by exact Hjl. eauto.
        -- rewrite nth_error_app2 in Hj by exact Hjl.
           destruct (j - List.length pre)%nat as [|k]; simpl in Hj.
           ++ inversion Hj; subst. exact E.
           ++ destruct k; discriminate.
      * intros j y Hjb Hj.
        assert (Hbl : (best < List.length pre)%nat)
          by (apply nth_error_Some; congruence).
        rewrite nth_error_app1 in Hj by lia. eauto.
    + assert (Hgt : flt mp x = true).
      { rewrite <- (fle_false_flt x mp Hx Hmp), E. reflexivity. }
      apply IH; try assumption.
      * rewrite nth_error_app2 by lia. rewrite Nat.sub_diag. reflexivity.
      * intros j y Hj.
        destruct (Nat.lt_ge_cases j (List.length pre)) as [Hjl|Hjl].
        -- rewrite nth_error_app1 in Hj by exact Hjl.
           apply flt_fle. apply (fle_flt_trans y mp x); eauto.
        -- rewrite nth_error_app2 in Hj by exact Hjl.
           destruct (j - List.length pre)%nat as [|k]; simpl in Hj.
           ++ inversion Hj; subst. apply fle_refl. exact Hx.
           ++ destruct k; discriminate.
      * intros j y Hjb Hj.
        rewrite nth_error_app1 in Hj by exact Hjb.
        apply (fle_flt_trans y mp x); eauto.
Qed.

(** On an array without NaN, [argmax] is the index of the first element
    equal to [max]: everything is at most it, everything before is below. *)
Lemma argmax_max l : Contract.nonempty l = true -> no_nan l ->
  exists i m,
    Np.argmax l = Ok i /\ Np.max l = Ok m /\
    nth_error l i = Some m /\
    (forall j y, nth_error l j = Some y -> fle y m = true) /\
    (forall j y, (j < i)%nat -> nth_error l j = Some y -> flt y m = true).
Proof.
  destruct l as [|x r]; [discriminate|]. intros _ H. inversion H as [|? ? Hx Hr]; subst.
  exists (Np.argmax_from r 1 x 0), (fold_left Np.maximum r x).
  split; [reflexivity|]. split; [reflexivity|].
  apply (argmax_from_spec r [x] x 0%nat Hr Hx).
  - reflexivity.
  - intros [|[|j]] y Hj; simpl in Hj; try discriminate.
    inversion Hj; subst. apply fle_refl. exact Hx.
  - intros j y Hj. lia.
Qed.

Lemma argmax_lt_length l i : Np.argmax l = Ok i -> (i < List.length l)%nat.
Proof.
  destruct l as [|x r]; [discriminate|]. simpl. intros H. inversion H; subst. clear H.
  assert (G : forall r i mp best, (best < i)%nat ->
             (Np.argmax_from r i mp best < i + List.length r)%nat).
  { clear. induction r as [|y r IH]; intros i mp best Hb; simpl; [lia|].
    destruct (is_nan mp); [lia|].
    destruct (negb (fle y mp)).
    - specialize (IH (S i) y i). lia.
    - specialize (IH (S i) mp best). lia. }
  specialize (G r 1%nat x 0%nat). simpl in G. lia.
Qed.

End NpFacts.

(** ** The /predict handler *)

Module AppFacts.

Import Py FloatOrder App Contract.

Lemma no_nan_forallb l :
  forallb (fun x => negb (is_nan x)) l = true -> no_nan l.
Proof.
  intros H. apply Forall_forall. intros x Hx.
  rewrite forallb_forall in H. apply negb_true_iff. apply H. exact Hx.
Qed.

Lemma row_ok_inv labels probs : Contract.row_ok labels probs = true ->
  NoDup labels /\ List.length probs = List.length labels /\
  Contract.nonempty probs = true /\ no_nan probs.
Proof.
  unfold Contract.row_ok. intros H.
  apply andb_prop in H. destruct H as [H H4].
  apply andb_prop in H. destruct H as [H H3].
  apply andb_prop in H. destruct H as [H1 H2].
  repeat split.
  - apply DictFacts.distinct_NoDup. exact H1.
  - apply Nat.eqb_eq. exact H2.
  - exact H3.
  - apply no_nan_forallb. exact H4.
Qed.

Lemma startup_inv d s : startup d = Ok s ->
  loads s = 1%nat /\ LABELS s = Sk.classes_ (pipe s) /\
  THRESH_NEEDS_REVIEW s = thresh_literal /\ disk s = d /\
  d TrainPriority.MODEL_PATH = Some (pipe s).
Proof.
  unfold startup. change (lit "priority_model.joblib") with TrainPriority.MODEL_PATH.
  destruct (d TrainPriority.MODEL_PATH) as [m|] eqn:E; [|discriminate].
  intros H. inversion H; subst. simpl. auto.
Qed.

(** What the handler computes when every step succeeds. *)
Lemma predict_run p s probs m i lab k :
  Sk.predict_proba (pipe s) (frame p) = Ok probs ->
  Np.max probs = Ok m ->
  Np.argmax probs = Ok i ->
  index (LABELS s) i = Ok lab ->
  round (fmul f100 m) = Ok k ->
  predict p s =
    (s, Ok {| priority := lab;
              score := k;
              proba := dict_of_items (combine (LABELS s) probs);
              needs_review := flt m (THRESH_NEEDS_REVIEW s);
              model := lit "tfidf_logreg_v1" |}).
Proof.
  intros H1 H2 H3 H4 H5. unfold predict, bind, global, lift, ret.
  rewrite H1, H2, H3, H4, H5. reflexivity.
Qed.

(** Conversely, a response tells how each of its fields was computed. *)
Lemma predict_inv p s r : snd (predict p s) = Ok r ->
  exists probs m i,
    Sk.predict_proba (pipe s) (frame p) = Ok probs /\
    Np.max probs = Ok m /\
    Np.argmax probs = Ok i /\
    index (LABELS s) i = Ok (priority r) /\
    round (fmul f100 m) = Ok (score r) /\
    proba r = dict_of_items (combine (LABELS s) probs) /\
    needs_review r = flt m (THRESH_NEEDS_REVIEW s) /\
    model r = lit "tfidf_logreg_v1".
Proof.
  unfold predict, bind, global, lift, ret.
  destruct (Sk.predict_proba (pipe s) (frame p)) as [probs|] eqn:H1; [|discriminate].
  destruct (Np.max probs) as [m|] eqn:H2; [|discriminate].
  destruct (Np.argmax probs) as [i|] eqn:H3; [|discriminate].
  destruct (index (LABELS s) i) as [lab|] eqn:H4; [|discriminate].
  destruct (round (fmul f100 m)) as [k|] eqn:H5; [|discriminate].
  simpl. intros H. inversion H; subst; simpl.
  exists probs, m, i. repeat split; assumption.
Qed.

Lemma preserves_ret {A : Type} (a : A) : preserves (ret a).
Proof. intros s. reflexivity. Qed.

Lemma preserves_global {A : Type} (f : Process -> A) : preserves (global f).
Proof. intros s. reflexivity. Qed.

Lemma preserves_lift {A : Type} (r : result A) : preserves (lift r).
Proof. intros s. reflexivity. Qed.

Lemma preserves_bind {A B : Type} (m : M A) (k : A -> M B) :
  preserves m -> (forall a, preserves (k a)) -> preserves (bind m k).
Proof.
  intros Hm Hk s. unfold bind. specialize (Hm s).
  destruct (m s) as [s' [a|e]]; simpl in Hm; subst.
  - apply Hk.
  - reflexivity.
Qed.

Lemma predict_preserves p : preserves (predict p).
Proof.
  unfold predict.
  repeat (apply preserves_bind; [first [apply preserves_global | apply preserves_lift]|intros ?]).
  apply preserves_ret.
Qed.

Lemma serve_preserves reqs : forall s, fst (serve reqs s) = s.
Proof.
  induction reqs as [|p rest IH]; intros s; simpl; [reflexivity|].
  pose proof (predict_preserves p s) as Hp.
  destruct (predict p s) as [s1 r]. simpl in Hp. subst s1.
  specialize (IH s). destruct (serve rest s) as [s2 rs]. exact IH.
Qed.

End AppFacts.

(** ** The response of /predict *)

Module Serving.

Import Py FloatOrder App.

(** The threshold is the binary64 value nearest to 0.55. *)
Lemma thresh_literal_value :
  thresh_literal = S754_finite false 4953959590107546 (-53) /\
  Z.abs (100 * 4953959590107546 - 55 * 2 ^ 53) * 2 <= 100.
Proof. split; [reflexivity | vm_compute; discriminate]. Qed.

Section Request.

Variable d : str -> option Sk.Estimator.
Variable s : Process.
Variable p : Payload.
Variable probs : list float.
Variable r : Response.

Hypothesis Hstart : startup d = Ok s.
Hypothesis Hrow : Sk.predict_proba (pipe s) (frame p) = Ok probs.
Hypothesis Hok : Contract.row_ok (Sk.classes_ (pipe s)) probs = true.
Hypothesis Hres : snd (predict p s) = Ok r.

Lemma response_fields :
  exists m i,
    Np.max probs = Ok m /\ Np.argmax probs = Ok i /\
    nth_error (Sk.classes_ (pipe s)) i = Some (priority r) /\
    round (fmul f100 m) = Ok (score r) /\
    proba r = combine (Sk.classes_ (pipe s)) probs /\
    needs_review r = flt m thresh_literal /\
    model r = lit "tfidf_logreg_v1".
Proof.
  destruct (AppFacts.startup_inv _ _ Hstart) as (_ & HL & HT & _).
  destruct (AppFacts.row_ok_inv _ _ Hok) as (Hnd & Hlen & _ & _).
  destruct (AppFacts.predict_inv _ _ _ Hres)
    as (probs' & m & i & H1 & H2 & H3 & H4 & H5 & H6 & H7 & H8).
  rewrite Hrow in H1. inversion H1; subst probs'. clear H1.
  rewrite HL in H4, H6. rewrite HT in H7.
  exists m, i. repeat split; try assumption.
  - unfold index in H4.
    destruct (nth_error (Sk.classes_ (pipe s)) i); inversion H4; reflexivity.
  - rewrite H6. apply DictFacts.dict_of_zip; assumption.
Qed.

Lemma response_values : values (proba r) = probs /\ keys (proba r) = Sk.classes_ (pipe s).
Proof.
  destruct (AppFacts.row_ok_inv _ _ Hok) as (Hnd & Hlen & _ & _).
  destruct response_fields as (m & i & _ & _ & _ & _ & H & _).
  rewrite H. split.
  - apply DictFacts.values_combine. exact Hlen.
  - apply DictFacts.keys_combine. exact Hlen.
Qed.

Lemma response_max m : Np.max probs = Ok m -> Py.max (values (proba r)) = Ok m.
Proof.
  destruct (AppFacts.row_ok_inv _ _ Hok) as (_ & _ & _ & Hnan).
  destruct response_values as [-> _].
  rewrite <- (NpFacts.np_max_py_max probs Hnan). trivial.
Qed.

End Request.

End Serving.


(** ** Rounding of a product to binary64, and [round] of the result *)

Module RoundingFacts.

Import Py Rounding.

Lemma shifted_init m : 0 <= m -> shifted m 0 (shr_record_of_loc m loc_Exact).
Proof.
  intros Hm. exists 0. simpl. repeat split; try lia; auto.
Qed.

Lemma shr_1_shifted m k mrs : 0 <= k -> shifted m k mrs -> shifted m (k + 1) (shr_1 mrs).
Proof.
  intros Hk (rem & Hq & Hrem & Hm & Hex).
  destruct mrs as [q r s]. unfold shifted.
  cbn [shr_m shr_r shr_s] in Hq, Hm, Hex.
  assert (Hp : 2 ^ (k + 1) = 2 * 2 ^ k) by (rewrite Z.pow_add_r by lia; lia).
  assert (Hpos : 0 < 2 ^ k) by (apply Z.pow_pos_nonneg; lia).
  rewrite Hp.
  destruct q as [|[q|q|]|q]; cbn [shr_1 shr_m shr_r shr_s]; try lia.
  - exists rem. split; [lia|]. split; [lia|]. split; [lia|]. split.
    + intros H0. destruct Hex as [Hex _]. destruct (Hex H0) as [-> ->]. auto.
    + intros [_ H0]. apply orb_false_iff in H0. apply Hex. tauto.
  - exists (rem + 2 ^ k). change (Z.pos q~1) with (2 * Z.pos q + 1) in Hm.
    split; [lia|]. split; [lia|]. split; [lia|]. split.
    + lia.
    + intros [H _]. discriminate.
  - exists rem. change (Z.pos q~0) with (2 * Z.pos q) in Hm.
    split; [lia|]. split; [lia|]. split; [lia|]. split.
    + intros H0. destruct Hex as [Hex _]. destruct (Hex H0) as [-> ->]. auto.
    + intros [_ H0]. apply orb_false_iff in H0. apply Hex. tauto.
  - exists (rem + 2 ^ k).
    split; [lia|]. split; [lia|]. split; [lia|]. split.
    + lia.
    + intros [H _]. discriminate.
Qed.

Lemma iter_pos_shifted m p : forall k mrs,
  0 <= k -> shifted m k mrs -> shifted m (k + Zpos p) (iter_pos shr_1 p mrs).
Proof.
  induction p as [p IH|p IH|]; intros k mrs Hk H; simpl.
  - replace (k + Z.pos p~1) with (k + 1 + Z.pos p + Z.pos p) by lia.
    apply IH; [lia|]. apply IH; [lia|]. apply shr_1_shifted; assumption.
  - replace (k + Z.pos p~0) with (k + Z.pos p + Z.pos p) by lia.
    apply IH; [lia|]. apply IH; assumption.
  - apply shr_1_shifted; assumption.
Qed.

Lemma shr_shifted m e n mrs e' : 0 <= m ->
  shr (shr_record_of_loc m loc_Exact) e n = (mrs, e') ->
  e' = e + Z.max n 0 /\ shifted m (Z.max n 0) mrs.
Proof.
  intros Hm H. unfold shr in H. destruct n as [|p|p]; inversion H; subst; clear H.
  - split; [simpl; lia|]. apply shifted_init. exact Hm.
  - split; [lia|]. replace (Z.max (Z.pos p) 0) with (0 + Z.pos p) by lia.
    apply iter_pos_shifted; [lia|]. apply shifted_init. exact Hm.
  - split; [lia|]. replace (Z.max (Z.neg p) 0) with 0 by lia.
    apply shifted_init. exact Hm.
Qed.


Lemma digits2_size p : digits2_pos p = Pos.size p.
Proof. induction p; simpl; congruence. Qed.

Lemma digits_le p d : 0 <= d -> Zpos p < 2 ^ d -> Zpos (digits2_pos p) <= d.
Proof.
  intros Hd Hp. rewrite digits2_size.
  destruct (Z_le_gt_dec (Zpos (Pos.size p)) d) as [H|H]; [exact H|exfalso].
  pose proof (Pos.size_le p) as Hs.
  apply Pos2Z.pos_le_pos in Hs. rewrite Pos2Z.inj_pow in Hs.
  change (Z.pos p~0) with (2 * Z.pos p) in Hs.
  assert (H1 : 2 ^ (d + 1) <= 2 ^ Z.pos (Pos.size p))
    by (apply Z.pow_le_mono_r; lia).
  rewrite Z.pow_add_r in H1 by lia. lia.
Qed.

Lemma fexp_eq x : fexp prec emax x = Z.max (x - 53) (-1074).
Proof. reflexivity. Qed.

Lemma pow2_pos k : 0 <= k -> 0 < 2 ^ k.
Proof. intros H. apply Z.pow_pos_nonneg; lia. Qed.

Lemma shr_fexp_bound m e mrs e' :
  0 <= m -> e <= 0 -> m <= 100 * 2 ^ (- e) ->
  shr_fexp prec emax m e loc_Exact = (mrs, e') ->
  e <= e' <= 0 /\ shifted m (e' - e) mrs.
Proof.
  intros Hm He Hle H. unfold shr_fexp in H.
  apply shr_shifted in H; [|exact Hm]. destruct H as [He' Hsh].
  rewrite fexp_eq in He', Hsh.
  assert (Hd : Zdigits2 m + e <= 7).
  { destruct m as [|p|p]; cbn [Zdigits2]; try lia.
    assert (Z.pos (digits2_pos p) <= 7 - e); [|lia].
    apply digits_le; [lia|].
    replace (7 - e) with (7 + - e) by lia. rewrite Z.pow_add_r by lia.
    pose proof (pow2_pos (- e)). change (2 ^ 7) with 128. lia. }
  split; [lia|].
  replace (e' - e) with (Z.max (Z.max (Zdigits2 m + e - 53) (-1074) - e) 0) by lia.
  exact Hsh.
Qed.

Lemma round_nearest_even_bound m k mrs K :
  0 <= k -> shifted m k mrs -> m <= K * 2 ^ k ->
  0 <= round_nearest_even (shr_m mrs) (loc_of_shr_record mrs) <= K.
Proof.
  intros Hk (rem & Hq & Hrem & Hm & Hex) Hle.
  pose proof (pow2_pos k Hk) as Hpos.
  assert (HqK : shr_m mrs <= K) by nia.
  assert (Hup : shr_m mrs = K -> shr_r mrs = false /\ shr_s mrs = false).
  { intros E. apply Hex. nia. }
  destruct mrs as [q r s]. cbn [shr_m shr_r shr_s] in *.
  destruct r, s; cbn [loc_of_shr_record round_nearest_even].
  - assert (q <> K) by (intros E; destruct (Hup E); discriminate). lia.
  - assert (q <> K) by (intros E; destruct (Hup E); discriminate).
    destruct (Z.even q); lia.
  - lia.
  - lia.
Qed.

Lemma binary_round_aux_le100 P E :
  0 < P -> E <= 0 -> P <= 100 * 2 ^ (- E) ->
  le100 (binary_round_aux prec emax false P E loc_Exact).
Proof.
  intros HP HE Hle. unfold binary_round_aux.
  destruct (shr_fexp prec emax P E loc_Exact) as [mrs1 e1] eqn:H1.
  apply shr_fexp_bound in H1; try lia. destruct H1 as [He1 Hsh1].
  set (m1 := round_nearest_even (shr_m mrs1) (loc_of_shr_record mrs1)).
  assert (Hm1 : 0 <= m1 <= 100 * 2 ^ (- e1)).
  { apply (round_nearest_even_bound P (e1 - E) mrs1); [lia|exact Hsh1|].
    rewrite <- Z.mul_assoc, <- Z.pow_add_r by lia.
    replace (- e1 + (e1 - E)) with (- E) by lia. exact Hle. }
  destruct (shr_fexp prec emax m1 e1 loc_Exact) as [mrs2 e2] eqn:H2.
  apply shr_fexp_bound in H2; try lia. destruct H2 as [He2 Hsh2].
  destruct Hsh2 as (rem & Hq & Hrem & Hm & _).
  destruct (shr_m mrs2) as [|m2|m2] eqn:Eq2; [exact I| |lia].
  replace (e2 <=? emax - prec) with true
    by (symmetry; apply Z.leb_le; unfold emax, prec; lia).
  cbn [le100]. split; [lia|].
  assert (Hpow : 2 ^ (- e1) = 2 ^ (- e2) * 2 ^ (e2 - e1)).
  { rewrite <- Z.pow_add_r by lia. f_equal. lia. }
  pose proof (pow2_pos (e2 - e1)). pose proof (pow2_pos (- e2)).
  rewrite Hpow in Hm1. nia.
Qed.


Lemma digits_lt p : Zpos p < 2 ^ Zpos (digits2_pos p).
Proof.
  rewrite digits2_size. pose proof (Pos.size_gt p) as H.
  apply Pos2Z.pos_lt_pos in H. rewrite Pos2Z.inj_pow in H. exact H.
Qed.

Lemma f1_value : f1 = S754_finite false 4503599627370496 (-52).
Proof. reflexivity. Qed.

Lemma f100_value : f100 = S754_finite false 7036874417766400 (-46).
Proof. reflexivity. Qed.

(** A float in [0, 1] is a zero or [m * 2 ^ e] with [m <= 2 ^ (- e)]. *)
Lemma prob01_inv x : Contract.prob01 x = true ->
  (exists s, x = S754_zero s) \/
  (exists m e, x = S754_finite false m e /\ e <= -52 /\ Zpos m <= 2 ^ (- e)).
Proof.
  unfold Contract.prob01. intros H.
  apply andb_prop in H. destruct H as [H H1].
  apply andb_prop in H. destruct H as [Hv H0].
  destruct x as [s|s| |s m e]; try discriminate.
  - left. exists s. reflexivity.
  - destruct s; discriminate.
  - right. destruct s; [discriminate|]. exists m, e. split; [reflexivity|].
    unfold is_float, valid_binary, bounded, canonical_mantissa in Hv.
    apply andb_prop in Hv. destruct Hv as [Hc _].
    apply Z.eqb_eq in Hc. rewrite fexp_eq in Hc.
    pose proof (digits_lt m) as Hd.
    rewrite f1_value in H1. unfold fle, SFleb, SFcompare in H1.
    destruct (Z.compare_spec e (-52)) as [E|E|E]; try discriminate.
    + subst e. split; [lia|].
      destruct (Pos.compare_cont Eq m 4503599627370496) eqn:Ec; try discriminate.
      * apply Pos.compare_eq in Ec. subst m. vm_compute. discriminate.
      * apply Pos.compare_lt_iff in Ec. apply Pos2Z.pos_lt_pos in Ec.
        change (2 ^ (- -52)) with 4503599627370496. lia.
    + split; [lia|].
      assert (Hs : Z.pos (digits2_pos m) <= 53) by lia.
      assert (H2 : 2 ^ Z.pos (digits2_pos m) <= 2 ^ (- e))
        by (apply Z.pow_le_mono_r; lia).
      lia.
Qed.

Lemma fmul_le100 x : Contract.prob01 x = true -> le100 (fmul f100 x).
Proof.
  intros H. destruct (prob01_inv x H) as [[s ->]|(m & e & -> & He & Hm)].
  - exact I.
  - rewrite f100_value. unfold fmul. cbn [SFmul xorb].
    apply binary_round_aux_le100; try lia.
    rewrite Pos2Z.inj_mul.
    replace (- (-46 + e)) with (46 + - e) by lia.
    rewrite Z.pow_add_r by lia.
    change (2 ^ 46) with 70368744177664.
    change (Z.pos 7036874417766400) with (100 * 70368744177664).
    pose proof (pow2_pos (- e)). nia.
Qed.

Lemma round_le100 x : le100 x -> exists k, round x = Ok k /\ 0 <= k <= 100.
Proof.
  destruct x as [s|s| |[|] m e]; cbn [le100]; try contradiction.
  - intros _. exists 0. split; [reflexivity|lia].
  - intros [He Hm]. eexists. split; [reflexivity|].
    cbn [cond_Zopp]. destruct e as [|p|p]; try lia; cbn [round_half_even].
    + change (2 ^ (- 0)) with 1 in Hm. change (2 ^ 0) with 1. lia.
    + change (- Z.neg p) with (Z.pos p) in Hm.
      rewrite Z.pow_pos_fold.
      pose proof (pow2_pos (Z.pos p)) as Hd.
      set (d := 2 ^ Z.pos p) in *.
      assert (Hd0 : 0 < d) by lia.
      pose proof (Z.div_mod (Z.pos m) d) as Hdm.
      pose proof (Z.mod_pos_bound (Z.pos m) d Hd0) as Hr.
      set (q := Z.pos m / d) in *. set (r := Z.pos m mod d) in *.
      assert (Hq0 : 0 <= q) by (apply Z.div_pos; lia).
      assert (Hq : q <= 100) by nia.
      destruct (Z.compare_spec (2 * r) d) as [E|E|E].
      * destruct (Z.even q); [lia|]. assert (q <> 100) by nia. lia.
      * lia.
      * assert (q <> 100) by nia. lia.
Qed.

End RoundingFacts.

(** ** When the handler answers *)

Module ServingTotal.

Import Py FloatOrder App.

Lemma forallb_nth {A : Type} (f : A -> bool) l i x :
  forallb f l = true -> nth_error l i = Some x -> f x = true.
Proof.
  intros H Hx. rewrite forallb_forall in H. apply H. apply (nth_error_In _ _ Hx).
Qed.

(** On a row of probabilities in [0, 1], one per distinct label, every step
    of the handler succeeds and the score is between 0 and 100. *)
Lemma predict_succeeds p s probs :
  Sk.predict_proba (pipe s) (frame p) = Ok probs ->
  Contract.row_ok (LABELS s) probs = true ->
  forallb Contract.prob01 probs = true ->
  exists r, predict p s = (s, Ok r) /\ 0 <= score r <= 100 /\
            In (priority r) (LABELS s) /\
            proba r = combine (LABELS s) probs /\
            model r = lit "tfidf_logreg_v1".
Proof.
  intros Hrow Hok H01.
  destruct (AppFacts.row_ok_inv _ _ Hok) as (Hnd & Hlen & Hne & Hnan).
  destruct (NpFacts.argmax_max probs Hne Hnan)
    as (i & m & Harg & Hmax & Hnth & _ & _).
  pose proof (forallb_nth _ _ _ _ H01 Hnth) as Hm.
  destruct (RoundingFacts.round_le100 _ (RoundingFacts.fmul_le100 m Hm))
    as (k & Hk & Hbound).
  assert (Hi : (i < List.length (LABELS s))%nat).
  { rewrite <- Hlen. apply nth_error_Some. congruence. }
  destruct (nth_error (LABELS s) i) as [lab|] eqn:Hlab;
    [|apply nth_error_None in Hlab; lia].
  assert (Hidx : index (LABELS s) i = Ok lab) by (unfold index; rewrite Hlab; reflexivity).
  eexists. split; [apply (AppFacts.predict_run p s probs m i lab k); assumption|].
  cbn [score priority proba model]. repeat split; try lia.
  - apply (nth_error_In _ _ Hlab).
  - apply DictFacts.dict_of_zip; assumption.
Qed.

(** After startup the labels are the estimator's classes. *)
Lemma answers d s p probs :
  startup d = Ok s ->
  Sk.predict_proba (pipe s) (frame p) = Ok probs ->
  Contract.row_ok (Sk.classes_ (pipe s)) probs = true ->
  forallb Contract.prob01 probs = true ->
  exists r, predict p s = (s, Ok r).
Proof.
  intros Hstart Hrow Hok H01.
  destruct (AppFacts.startup_inv _ _ Hstart) as (_ & HL & _).
  rewrite <- HL in Hok.
  destruct (predict_succeeds p s probs Hrow Hok H01) as (r & Hr & _).
  exists r. exact Hr.
Qed.

End ServingTotal.

(** ** The one-hot block of the fitted transformer *)

Module SkFacts.

Import Py.

Section Encoder.

Context {A : Type}.
Variable eqb : A -> A -> bool.

Lemma one_hot_length cats v : List.length (Sk.one_hot eqb cats v) = List.length cats.
Proof. unfold Sk.one_hot. apply length_map. Qed.

Lemma one_hot_finite cats v : forallb is_finite (Sk.one_hot eqb cats v) = true.
Proof.
  induction cats as [|c r IH]; simpl; [reflexivity|].
  rewrite IH. destruct (eqb c v); reflexivity.
Qed.

Lemma zeros_finite (cats : list A) : forallb is_finite (map (fun _ => f0) cats) = true.
Proof. induction cats as [|c r IH]; simpl; [reflexivity|exact IH]. Qed.

(** With [handle_unknown="ignore"] a column always encodes, to a block as
    wide as the category list, and an unknown value encodes to zeros. *)
Lemma encode_ignore cats v :
  exists b, Sk.encode_column eqb Sk.HandleIgnore cats v = Ok b /\
            List.length b = List.length cats /\
            forallb is_finite b = true /\
            (Sk.known eqb cats v = false -> b = map (fun _ => f0) cats).
Proof.
  unfold Sk.encode_column. destruct (Sk.known eqb cats v).
  - exists (Sk.one_hot eqb cats v). repeat split.
    + apply one_hot_length.
    + apply one_hot_finite.
    + discriminate.
  - exists (map (fun _ => f0) cats). repeat split.
    + apply length_map.
    + apply zeros_finite.
Qed.

(** With the library's default policy an unknown value raises. *)
Lemma encode_error_unknown cats v :
  Sk.known eqb cats v = false ->
  Sk.encode_column eqb Sk.HandleError cats v = Raise ValueError.
Proof. intros H. unfold Sk.encode_column. rewrite H. reflexivity. Qed.

End Encoder.

Lemma forallb_app_true {A : Type} (f : A -> bool) l1 l2 :
  forallb f l1 = true -> forallb f l2 = true -> forallb f (l1 ++ l2) = true.
Proof. intros H1 H2. rewrite forallb_app, H1, H2. reflexivity. Qed.

(** The feature row of the pipeline that train_priority.py saves. *)
Lemma transform_row (l : TrainPriority.Learned) (X : Sk.Frame) :
  Contract.fitted l ->
  forallb is_finite
    (Sk.scaler_transform (Sk.ct_num (TrainPriority.pre l))
       (Sk.col_spend30d X) (Sk.col_eta_to_sla_min X)) = true ->
  exists bd bv,
    Sk.encode_column str_eqb Sk.HandleIgnore
      (TrainPriority.learned_domains l) (Sk.col_domain X) = Ok bd /\
    (Sk.known str_eqb (TrainPriority.learned_domains l) (Sk.col_domain X) = false ->
     bd = map (fun _ => f0) (TrainPriority.learned_domains l)) /\
    let row :=
      Sk.tfidf_transform (TrainPriority.learned_tfidf l) (Sk.col_text X)
      ++ Sk.scaler_transform (Sk.ct_num (TrainPriority.pre l))
           (Sk.col_spend30d X) (Sk.col_eta_to_sla_min X)
      ++ bd ++ bv in
    Sk.ct_transform (TrainPriority.pre l) X = Ok row /\
    List.length row = Sk.n_features_in_ (TrainPriority.learned_clf l) /\
    forallb is_finite row = true.
Proof.
  intros (Hwidth & Hfin & _) Hnum.
  destruct (encode_ignore str_eqb (TrainPriority.learned_domains l) (Sk.col_domain X))
    as (bd & Hbd & Hld & Hfd & Hzero).
  destruct (encode_ignore Z.eqb (TrainPriority.learned_vips l) (Sk.col_vip X))
    as (bv & Hbv & Hlv & Hfv & _).
  exists bd, bv. split; [exact Hbd|]. split; [exact Hzero|].
  cbv zeta. repeat split.
  - unfold Sk.ct_transform, Sk.onehot_transform.
    cbn [TrainPriority.pre Sk.ct_cat Sk.ct_tfidf Sk.handle_unknown
         Sk.categories_domain Sk.categories_vip].
    rewrite Hbd, Hbv. reflexivity.
  - rewrite !length_app, Hld, Hlv. rewrite <- (Hwidth (Sk.col_text X)).
    cbn [Sk.scaler_transform List.length]. lia.
  - repeat apply forallb_app_true; auto.
Qed.

End SkFacts.

Module ServingClaims.

Import Py FloatOrder App.

(** C1. For a started process and a payload on which the estimator returns
    one non-NaN probability per distinct class, the response's
    [needs_review] is true if and only if the maximum of the values of the
    returned [proba] mapping is strictly below the threshold 0.55; and a
    response there is, whenever the probabilities are floats in [0, 1]. *)
Theorem needs_review_iff_max_below_threshold
    (d : str -> option Sk.Estimator) (s : Process) (p : Payload)
    (probs : list float) :
  startup d = Ok s ->
  Sk.predict_proba (pipe s) (frame p) = Ok probs ->
  Contract.row_ok (Sk.classes_ (pipe s)) probs = true ->
  (forallb Contract.prob01 probs = true -> exists r, predict p s = (s, Ok r)) /\
  forall r, snd (predict p s) = Ok r ->
  exists m, Py.max (values (proba r)) = Ok m /\
            (needs_review r = true <-> flt m thresh_literal = true).
Proof.
  intros Hstart Hrow Hok.
  split; [apply (ServingTotal.answers d s p probs Hstart Hrow Hok)|].
  intros r Hres.
  destruct (Serving.response_fields d s p probs r Hstart Hrow Hok Hres)
    as (m & i & Hmax & _ & _ & _ & _ & Hnr & _).
  exists m. split.
  - apply (Serving.response_max d s p probs r Hstart Hrow Hok Hres). exact Hmax.
  - rewrite Hnr. tauto.
Qed.

Lemma needs_review_iff_max_below_threshold_witness :
  (forallb Contract.prob01 [Demo.quarter; Demo.half; Demo.quarter] = true ->
   exists r, predict Demo.ticket Demo.process = (Demo.process, Ok r)) /\
  forall r, snd (predict Demo.ticket Demo.process) = Ok r ->
  exists m, Py.max (values (proba r)) = Ok m /\
            (needs_review r = true <-> flt m thresh_literal = true).
Proof.
  apply (needs_review_iff_max_below_threshold Demo.disk Demo.process Demo.ticket
           [Demo.quarter; Demo.half; Demo.quarter]); reflexivity.
Defined.

(** C3. Under the same conditions, [priority] is the class label whose
    entry in the returned [proba] mapping is maximal: it is a class of the
    model and a key of [proba], its value is the maximum of the values, no
    entry exceeds it, and every class that comes earlier in [classes_] has a
    strictly smaller entry (the first maximum wins a tie). A response
    there is, whenever the probabilities are floats in [0, 1]. *)
Theorem priority_is_first_argmax
    (d : str -> option Sk.Estimator) (s : Process) (p : Payload)
    (probs : list float) :
  startup d = Ok s ->
  Sk.predict_proba (pipe s) (frame p) = Ok probs ->
  Contract.row_ok (Sk.classes_ (pipe s)) probs = true ->
  (forallb Contract.prob01 probs = true -> exists r, predict p s = (s, Ok r)) /\
  forall r, snd (predict p s) = Ok r ->
  exists i m,
    nth_error (Sk.classes_ (pipe s)) i = Some (priority r) /\
    In (priority r) (Sk.classes_ (pipe s)) /\
    In (priority r) (keys (proba r)) /\
    dict_get (proba r) (priority r) = Some m /\
    Py.max (values (proba r)) = Ok m /\
    (forall l v, dict_get (proba r) l = Some v -> fle v m = true) /\
    (forall j l v, (j < i)%nat ->
       nth_error (Sk.classes_ (pipe s)) j = Some l ->
       dict_get (proba r) l = Some v -> flt v m = true).
Proof.
  intros Hstart Hrow Hok.
  split; [apply (ServingTotal.answers d s p probs Hstart Hrow Hok)|].
  intros r Hres.
  destruct (Serving.response_fields d s p probs r Hstart Hrow Hok Hres)
    as (m & i & Hmax & Harg & Hlab & _ & Hproba & _ & _).
  destruct (Serving.response_values d s p probs r Hstart Hrow Hok Hres) as [_ Hkeys].
  destruct (AppFacts.row_ok_inv _ _ Hok) as (Hnd & Hlen & Hne & Hnan).
  destruct (NpFacts.argmax_max probs Hne Hnan)
    as (i' & m' & Harg' & Hmax' & Hnth & Hle & Hlt).
  rewrite Harg in Harg'. rewrite Hmax in Hmax'.
  inversion Harg'; inversion Hmax'; subst i' m'.
  exists i, m. repeat split.
  - exact Hlab.
  - apply (nth_error_In _ _ Hlab).
  - rewrite Hkeys. apply (nth_error_In _ _ Hlab).
  - rewrite Hproba. apply (DictFacts.dict_get_combine _ _ i); assumption.
  - apply (Serving.response_max d s p probs r Hstart Hrow Hok Hres). exact Hmax.
  - intros l v Hget. rewrite Hproba in Hget.
    destruct (DictFacts.dict_get_combine_inv _ _ _ _ Hget) as (j & _ & Hj).
    apply (Hle j v Hj).
  - intros j l v Hji Hl Hget. rewrite Hproba in Hget.
    assert (Hjl : (j < List.length probs)%nat).
    { rewrite Hlen. apply nth_error_Some. congruence. }
    destruct (nth_error probs j) as [y|] eqn:Hy;
      [|apply nth_error_None in Hy; lia].
    rewrite (DictFacts.dict_get_combine _ _ j l y Hnd Hl Hy) in Hget.
    inversion Hget; subst. apply (Hlt j v Hji Hy).
Qed.

Lemma priority_is_first_argmax_witness :
  (forallb Contract.prob01 [Demo.quarter; Demo.half; Demo.quarter] = true ->
   exists r, predict Demo.ticket Demo.process = (Demo.process, Ok r)) /\
  forall r, snd (predict Demo.ticket Demo.process) = Ok r ->
  exists i m,
    nth_error (Sk.classes_ (pipe Demo.process)) i = Some (priority r) /\
    In (priority r) (Sk.classes_ (pipe Demo.process)) /\
    In (priority r) (keys (proba r)) /\
    dict_get (proba r) (priority r) = Some m /\
    Py.max (values (proba r)) = Ok m /\
    (forall l v, dict_get (proba r) l = Some v -> fle v m = true) /\
    (forall j l v, (j < i)%nat ->
       nth_error (Sk.classes_ (pipe Demo.process)) j = Some l ->
       dict_get (proba r) l = Some v -> flt v m = true).
Proof.
  apply (priority_is_first_argmax Demo.disk Demo.process Demo.ticket
           [Demo.quarter; Demo.half; Demo.quarter]); reflexivity.
Defined.

(** C4. Under the same conditions the returned [proba] mapping has exactly
    one entry per class of the model, in [classes_] order, and each value is
    the estimator's probability for that class, unchanged; hence whenever
    the estimator's row sums to 1.0 within a tolerance (the library's
    normalisation), so do the values of the mapping. A response there
    is, whenever the probabilities are floats in [0, 1]. *)
Theorem proba_is_the_estimator_row
    (d : str -> option Sk.Estimator) (s : Process) (p : Payload)
    (probs : list float) (tol : float) :
  startup d = Ok s ->
  Sk.predict_proba (pipe s) (frame p) = Ok probs ->
  Contract.row_ok (Sk.classes_ (pipe s)) probs = true ->
  Contract.sums_to_one tol probs = true ->
  (forallb Contract.prob01 probs = true -> exists r, predict p s = (s, Ok r)) /\
  forall r, snd (predict p s) = Ok r ->
  keys (proba r) = Sk.classes_ (pipe s) /\
  NoDup (keys (proba r)) /\
  values (proba r) = probs /\
  (forall i l, nth_error (Sk.classes_ (pipe s)) i = Some l ->
     dict_get (proba r) l = nth_error probs i) /\
  Contract.sums_to_one tol (values (proba r)) = true.
Proof.
  intros Hstart Hrow Hok Hsum.
  split; [apply (ServingTotal.answers d s p probs Hstart Hrow Hok)|].
  intros r Hres.
  destruct (Serving.response_fields d s p probs r Hstart Hrow Hok Hres)
    as (m & i & _ & _ & _ & _ & Hproba & _ & _).
  destruct (Serving.response_values d s p probs r Hstart Hrow Hok Hres) as [Hv Hk].
  destruct (AppFacts.row_ok_inv _ _ Hok) as (Hnd & Hlen & _ & _).
  repeat split.
  - exact Hk.
  - rewrite Hk. exact Hnd.
  - exact Hv.
  - intros j l Hl.
    assert (Hjl : (j < List.length probs)%nat).
    { rewrite Hlen. apply nth_error_Some. congruence. }
    destruct (nth_error probs j) as [y|] eqn:Hy;
      [|apply nth_error_None in Hy; lia].
    rewrite Hproba. apply (DictFacts.dict_get_combine _ _ j); assumption.
  - rewrite Hv. exact Hsum.
Qed.

Lemma proba_is_the_estimator_row_witness :
  (forallb Contract.prob01 [Demo.quarter; Demo.half; Demo.quarter] = true ->
   exists r, predict Demo.ticket Demo.process = (Demo.process, Ok r)) /\
  forall r, snd (predict Demo.ticket Demo.process) = Ok r ->
  keys (proba r) = Sk.classes_ (pipe Demo.process) /\
  NoDup (keys (proba r)) /\
  values (proba r) = [Demo.quarter; Demo.half; Demo.quarter] /\
  (forall i l, nth_error (Sk.classes_ (pipe Demo.process)) i = Some l ->
     dict_get (proba r) l
     = nth_error [Demo.quarter; Demo.half; Demo.quarter] i) /\
  Contract.sums_to_one f0 (values (proba r)) = true.
Proof.
  apply (proba_is_the_estimator_row Demo.disk Demo.process Demo.ticket
           [Demo.quarter; Demo.half; Demo.quarter] f0); reflexivity.
Defined.

(** C9. The model is loaded once, when the process starts; from then on
    every request, after any sequence of earlier requests, leaves the whole
    process state (the loaded pipeline, [LABELS], the threshold, the number
    of loads) exactly as it was. *)
Theorem requests_leave_process_unchanged
    (d : str -> option Sk.Estimator) (s : Process) :
  startup d = Ok s ->
  loads s = 1%nat /\
  d TrainPriority.MODEL_PATH = Some (pipe s) /\
  LABELS s = Sk.classes_ (pipe s) /\
  THRESH_NEEDS_REVIEW s = thresh_literal /\
  forall (reqs : list Payload) (p : Payload),
    fst (serve reqs s) = s /\
    fst (predict p (fst (serve reqs s))) = s /\
    loads (fst (predict p (fst (serve reqs s)))) = 1%nat.
Proof.
  intros Hstart.
  destruct (AppFacts.startup_inv _ _ Hstart) as (Hl & HL & HT & _ & Hd).
  repeat split; try assumption.
  - apply AppFacts.serve_preserves.
  - rewrite AppFacts.serve_preserves. apply AppFacts.predict_preserves.
  - rewrite AppFacts.serve_preserves, AppFacts.predict_preserves. exact Hl.
Qed.

Lemma requests_leave_process_unchanged_witness :
  loads Demo.process = 1%nat /\
  Demo.disk TrainPriority.MODEL_PATH = Some (pipe Demo.process) /\
  LABELS Demo.process = Sk.classes_ (pipe Demo.process) /\
  THRESH_NEEDS_REVIEW Demo.process = thresh_literal /\
  forall (reqs : list Payload) (p : Payload),
    fst (serve reqs Demo.process) = Demo.process /\
    fst (predict p (fst (serve reqs Demo.process))) = Demo.process /\
    loads (fst (predict p (fst (serve reqs Demo.process)))) = 1%nat.
Proof.
  apply (requests_leave_process_unchanged Demo.disk Demo.process). reflexivity.
Defined.

(** C2. Under the same conditions, [score] is [round(100 * m)] for [m] the
    maximum of the values of the returned [proba] mapping (the product and
    the rounding are those of binary64 and of [round]); and when every
    probability is a float in [0, 1], the handler answers and [score] is
    between 0 and 100. *)
Theorem score_is_rounded_max
    (d : str -> option Sk.Estimator) (s : Process) (p : Payload)
    (probs : list float) :
  startup d = Ok s ->
  Sk.predict_proba (pipe s) (frame p) = Ok probs ->
  Contract.row_ok (Sk.classes_ (pipe s)) probs = true ->
  (forallb Contract.prob01 probs = true -> exists r, predict p s = (s, Ok r)) /\
  forall r, snd (predict p s) = Ok r ->
  exists m, Py.max (values (proba r)) = Ok m /\
            round (fmul f100 m) = Ok (score r) /\
            (forallb Contract.prob01 probs = true -> 0 <= score r <= 100).
Proof.
  intros Hstart Hrow Hok.
  split; [apply (ServingTotal.answers d s p probs Hstart Hrow Hok)|].
  intros r Hres.
  destruct (Serving.response_fields d s p probs r Hstart Hrow Hok Hres)
    as (m & i & Hmax & Harg & _ & Hround & _).
  exists m. split; [|split].
  - apply (Serving.response_max d s p probs r Hstart Hrow Hok Hres). exact Hmax.
  - exact Hround.
  - intros H01.
    destruct (AppFacts.row_ok_inv _ _ Hok) as (_ & _ & Hne & Hnan).
    destruct (NpFacts.argmax_max probs Hne Hnan)
      as (i' & m' & _ & Hmax' & Hnth & _ & _).
    rewrite Hmax in Hmax'. inversion Hmax'; subst m'.
    pose proof (ServingTotal.forallb_nth _ _ _ _ H01 Hnth) as Hm.
    destruct (RoundingFacts.round_le100 _ (RoundingFacts.fmul_le100 m Hm))
      as (k & Hk & Hbound).
    rewrite Hround in Hk. inversion Hk; subst k. exact Hbound.
Qed.

Lemma score_is_rounded_max_witness :
  (forallb Contract.prob01 [Demo.quarter; Demo.half; Demo.quarter] = true ->
   exists r, predict Demo.ticket Demo.process = (Demo.process, Ok r)) /\
  forall r, snd (predict Demo.ticket Demo.process) = Ok r ->
  exists m, Py.max (values (proba r)) = Ok m /\
            round (fmul f100 m) = Ok (score r) /\
            (forallb Contract.prob01 [Demo.quarter; Demo.half; Demo.quarter] = true ->
             0 <= score r <= 100).
Proof.
  apply (score_is_rounded_max Demo.disk Demo.process Demo.ticket
           [Demo.quarter; Demo.half; Demo.quarter]); reflexivity.
Defined.

(** C7. For the pipeline that train_priority.py fits and saves (one-hot
    encoder with [handle_unknown="ignore"]), a payload whose [domain] is not
    among the trained categories is still answered: the domain encodes to an
    all-zero block, nothing raises, and the response carries a class of the
    model as [priority], a [score] between 0 and 100, one [proba] entry per
    class, the review flag and the model identifier. *)
Theorem unknown_domain_is_answered
    (l : TrainPriority.Learned) (d : str -> option Sk.Estimator)
    (s : Process) (p : Payload) :
  Contract.fitted l ->
  startup d = Ok s ->
  pipe s = Sk.estimator_of (TrainPriority.pipe l) ->
  Sk.known str_eqb (TrainPriority.learned_domains l) (domain p) = false ->
  forallb is_finite
    (Sk.scaler_transform (Sk.ct_num (TrainPriority.pre l))
       (spend30d p) (eta_to_sla_min p)) = true ->
  Sk.encode_column str_eqb (Sk.handle_unknown (Sk.ct_cat (TrainPriority.pre l)))
    (TrainPriority.learned_domains l) (domain p)
  = Ok (map (fun _ => f0) (TrainPriority.learned_domains l)) /\
  exists r,
    predict p s = (s, Ok r) /\
    In (priority r) (Sk.clf_classes (TrainPriority.learned_clf l)) /\
    0 <= score r <= 100 /\
    keys (proba r) = Sk.clf_classes (TrainPriority.learned_clf l) /\
    model r = lit "tfidf_logreg_v1".
Proof.
  intros Hfit Hstart Hpipe Hunknown Hnum.
  destruct (SkFacts.transform_row l (frame p) Hfit Hnum)
    as (bd & bv & Hbd & Hzero & Hct & Hlen & Hfin).
  cbv zeta in Hct, Hlen, Hfin.
  set (row := Sk.tfidf_transform (TrainPriority.learned_tfidf l) (Sk.col_text (frame p))
              ++ Sk.scaler_transform (Sk.ct_num (TrainPriority.pre l))
                   (Sk.col_spend30d (frame p)) (Sk.col_eta_to_sla_min (frame p))
              ++ bd ++ bv) in *.
  split.
  - cbn [TrainPriority.pre Sk.ct_cat Sk.handle_unknown].
    cbn [frame Sk.col_domain] in Hbd, Hzero. rewrite Hbd, (Hzero Hunknown). reflexivity.
  - destruct Hfit as (_ & _ & Hclf). destruct (Hclf row Hlen Hfin) as [Hok H01].
    destruct (AppFacts.startup_inv _ _ Hstart) as (_ & HL & _).
    assert (Hclasses : LABELS s = Sk.clf_classes (TrainPriority.learned_clf l))
      by (rewrite HL, Hpipe; reflexivity).
    assert (Hrow : Sk.predict_proba (pipe s) (frame p)
                   = Ok (Sk.clf_proba (TrainPriority.learned_clf l) row)).
    { rewrite Hpipe. cbn [Sk.estimator_of Sk.predict_proba].
      unfold Sk.pipeline_predict_proba.
      cbn [TrainPriority.pipe Sk.pre Sk.clf]. rewrite Hct. cbn [rbind].
      unfold Sk.clf_predict_proba. rewrite Hlen, Nat.eqb_refl, Hfin. reflexivity. }
    rewrite <- Hclasses in Hok.
    destruct (ServingTotal.predict_succeeds p s _ Hrow Hok H01)
      as (r & Hr & Hscore & Hprio & Hproba & Hmodel).
    exists r. rewrite <- Hclasses. repeat split; try assumption; try lia.
    rewrite Hproba. apply DictFacts.keys_combine.
    destruct (AppFacts.row_ok_inv _ _ Hok) as (_ & Hlen' & _). exact Hlen'.
Qed.

Lemma unknown_domain_is_answered_witness :
  Sk.encode_column str_eqb
    (Sk.handle_unknown (Sk.ct_cat (TrainPriority.pre Demo.learned)))
    (TrainPriority.learned_domains Demo.learned) (domain Demo.stray_ticket)
  = Ok (map (fun _ => f0) (TrainPriority.learned_domains Demo.learned)) /\
  exists r,
    predict Demo.stray_ticket Demo.process = (Demo.process, Ok r) /\
    In (priority r) (Sk.clf_classes (TrainPriority.learned_clf Demo.learned)) /\
    0 <= score r <= 100 /\
    keys (proba r) = Sk.clf_classes (TrainPriority.learned_clf Demo.learned) /\
    model r = lit "tfidf_logreg_v1".
Proof.
  apply (unknown_domain_is_answered Demo.learned Demo.disk Demo.process
           Demo.stray_ticket);
    [repeat split; intros; reflexivity | reflexivity ..].
Defined.

End ServingClaims.

(** ** The text steps of Pipeline B *)

Module TextFacts.

Import Py.

Section Tables.

Variable rt : Runtime.

(** *** [re.sub] against the prose "runs of non-word characters" *)

Lemma sub_nonword_runs (s : str) :
  Text.sub_nonword_from rt false s = CleanSpec.collapse_nonword rt s /\
  Text.sub_nonword_from rt true s =
    match CleanSpec.runs (re_word rt) s with
    | (false, _) :: rest =>
        List.concat (map (fun bw : bool * str => if fst bw then snd bw else [Text.SPACE]) rest)
    | _ => CleanSpec.collapse_nonword rt s
    end.
Proof.
  unfold CleanSpec.collapse_nonword.
  induction s as [|c r [IH1 IH2]]; [split; reflexivity|].
  cbn [Text.sub_nonword_from CleanSpec.runs].
  destruct (re_word rt c) eqn:Hc.
  - rewrite IH1.
    destruct (CleanSpec.runs (re_word rt) r) as [|[[|] w] rest]; split; reflexivity.
  - rewrite IH2.
    destruct (CleanSpec.runs (re_word rt) r) as [|[[|] w] rest]; split; reflexivity.
Qed.

Lemma sub_nonword_collapse (s : str) :
  Text.sub_nonword rt s = CleanSpec.collapse_nonword rt s.
Proof. apply sub_nonword_runs. Qed.

(** *** [split] against the prose "split on whitespace" *)

Lemma split_from_runs (s : str) : forall cur,
  Text.split_from rt cur s =
    match CleanSpec.runs (str_isspace rt) s with
    | (false, w) :: rest =>
        (rev cur ++ w)
        :: map snd (filter (fun bw : bool * str => negb (fst bw)) rest)
    | _ => Text.flush cur (CleanSpec.tokens rt s)
    end.
Proof.
  unfold CleanSpec.tokens.
  induction s as [|c r IH]; intros cur; [reflexivity|].
  cbn [Text.split_from CleanSpec.runs].
  destruct (str_isspace rt c) eqn:Hc.
  - rewrite (IH []).
    destruct (CleanSpec.runs (str_isspace rt) r) as [|[[|] w] rest]; reflexivity.
  - rewrite (IH (c :: cur)).
    destruct (CleanSpec.runs (str_isspace rt) r) as [|[[|] w] rest]; cbn;
      try rewrite <- app_assoc; reflexivity.
Qed.

Lemma split_tokens (s : str) : Text.split rt s = CleanSpec.tokens rt s.
Proof.
  unfold Text.split. rewrite split_from_runs. unfold CleanSpec.tokens.
  destruct (CleanSpec.runs (str_isspace rt) s) as [|[[|] w] rest]; reflexivity.
Qed.

End Tables.

(** *** Membership and joining *)

Lemma contains_In (words : list str) (w : str) :
  Text.contains words w = true <-> In w words.
Proof.
  unfold Text.contains. rewrite existsb_exists. split.
  - intros (x & Hx & E). apply DictFacts.str_eqb_eq in E. subst. exact Hx.
  - intros H. exists w. split; [exact H | apply DictFacts.str_eqb_refl].
Qed.

Lemma contains_in_dec (words : list str) (w : str) :
  negb (Text.contains words w)
  = if in_dec (list_eq_dec N.eq_dec) w words then false else true.
Proof.
  destruct (in_dec (list_eq_dec N.eq_dec) w words) as [H|H].
  - apply contains_In in H. rewrite H. reflexivity.
  - destruct (Text.contains words w) eqn:E; [|reflexivity].
    apply contains_In in E. contradiction.
Qed.

Lemma join_rejoin (ws : list str) : Text.join (lit " ") ws = CleanSpec.rejoin ws.
Proof.
  unfold CleanSpec.rejoin.
  induction ws as [|w rest IH]; [reflexivity|].
  cbn [Text.join CleanSpec.intersperse].
  destruct rest as [|w' rest'].
  - cbn. rewrite app_nil_r. reflexivity.
  - rewrite IH. reflexivity.
Qed.

End TextFacts.

(** ** A second pass over cleaned text *)

Module SecondPass.

Import Py.

Section Tables.

Variable rt : Runtime.

(** Characters of the substituted text are spaces or word characters of
    the input. *)
Lemma sub_nonword_chars (s : str) : forall b c,
  In c (Text.sub_nonword_from rt b s) ->
  c = Text.SPACE \/ (In c s /\ re_word rt c = true).
Proof.
  induction s as [|x r IH]; intros b c H; [contradiction|].
  cbn [Text.sub_nonword_from] in H. destruct (re_word rt x) eqn:Hx.
  - destruct H as [->|H]; [right; split; [left; reflexivity|exact Hx]|].
    destruct (IH _ _ H) as [E|[Hin Hw]]; [left; exact E|right; split; [right|]; assumption].
  - assert (G : In c (Text.SPACE :: Text.sub_nonword_from rt true r)).
    { destruct b; [right|]; exact H. }
    destruct G as [<-|G]; [left; reflexivity|].
    destruct (IH _ _ G) as [E|[Hin Hw]]; [left; exact E|right; split; [right|]; assumption].
Qed.

(** Tokens are non-empty, free of white space, and made of characters of
    the text. *)
Lemma split_from_tokens (s : str) : forall cur t,
  (forall c, In c cur -> str_isspace rt c = false) ->
  In t (Text.split_from rt cur s) ->
  t <> [] /\ forall c, In c t -> str_isspace rt c = false /\ (In c cur \/ In c s).
Proof.
  assert (Hflush : forall cur out t,
             (forall c, In c cur -> str_isspace rt c = false) ->
             In t (Text.flush cur out) ->
             (t <> [] /\ forall c, In c t -> str_isspace rt c = false /\ In c cur) \/ In t out).
  { intros cur out t Hcur Ht. destruct cur as [|x cur']; [right; exact Ht|].
    destruct Ht as [<-|Ht]; [left|right; exact Ht]. split.
    - intros E. apply (f_equal (@List.length _)) in E.
      rewrite length_rev in E. discriminate.
    - intros c Hc. apply in_rev in Hc. split; [apply Hcur|]; exact Hc. }
  induction s as [|x r IH]; intros cur t Hcur Ht; cbn [Text.split_from] in Ht.
  - destruct (Hflush _ _ _ Hcur Ht) as [[Hne Hc]|[]].
    split; [exact Hne|]. intros c Hin. destruct (Hc c Hin). auto.
  - destruct (str_isspace rt x) eqn:Hx.
    + destruct (Hflush _ _ _ Hcur Ht) as [[Hne Hc]|Hin].
      * split; [exact Hne|]. intros c Hin. destruct (Hc c Hin). auto.
      * destruct (IH [] t (fun c (F : In c []) => match F with end) Hin) as [Hne Hc].
        split; [exact Hne|]. intros c Hc'. destruct (Hc c Hc') as [Hs [[]|Hr]].
        split; [exact Hs|right; right; exact Hr].
    + assert (Hcur' : forall c, In c (x :: cur) -> str_isspace rt c = false).
      { intros c [<-|Hc]; [exact Hx|apply Hcur; exact Hc]. }
      destruct (IH (x :: cur) t Hcur' Ht) as [Hne Hc].
      split; [exact Hne|]. intros c Hc'. destruct (Hc c Hc') as [Hs [[<-|Hcu]|Hr]].
      * split; [exact Hs|right; left; reflexivity].
      * split; [exact Hs|left; exact Hcu].
      * split; [exact Hs|right; right; exact Hr].
Qed.

(** A token of word characters passes through the substitution. *)
Lemma sub_nonword_word_prefix (t x : str) b :
  forallb (re_word rt) t = true -> t <> [] \/ b = false ->
  Text.sub_nonword_from rt b (t ++ x) = t ++ Text.sub_nonword_from rt false x.
Proof.
  revert b. induction t as [|c t IH]; intros b Ht Hb.
  - destruct Hb as [Hb | ->]; [contradiction|reflexivity].
  - cbn in Ht. apply andb_prop in Ht. destruct Ht as [Hc Ht].
    cbn [app Text.sub_nonword_from]. rewrite Hc. f_equal.
    apply IH; [exact Ht|right; reflexivity].
Qed.

(** A token without white space is collected whole. *)
Lemma split_from_token_prefix (t x cur : str) :
  forallb (fun c => negb (str_isspace rt c)) t = true ->
  Text.split_from rt cur (t ++ x) = Text.split_from rt (rev t ++ cur) x.
Proof.
  revert cur. induction t as [|c t IH]; intros cur Ht; [reflexivity|].
  cbn in Ht. apply andb_prop in Ht. destruct Ht as [Hc Ht].
  apply negb_true_iff in Hc.
  cbn [app Text.split_from]. rewrite Hc, IH by exact Ht.
  cbn [rev]. rewrite <- app_assoc. reflexivity.
Qed.

Lemma flush_nonempty (cur : str) (out : list str) :
  cur <> [] -> Text.flush cur out = rev cur :: out.
Proof. destruct cur; [contradiction|reflexivity]. Qed.

Lemma token_inv (t : str) : Cleaned.token rt t = true ->
  t <> [] /\ forallb (re_word rt) t = true /\
  forallb (fun c => negb (str_isspace rt c)) t = true.
Proof.
  unfold Cleaned.token. intros H.
  apply andb_prop in H. destruct H as [H H3].
  apply andb_prop in H. destruct H as [H1 H2].
  repeat split; try assumption. intros ->. discriminate.
Qed.

Hypothesis space_not_word : re_word rt Text.SPACE = false.
Hypothesis space_is_white : str_isspace rt Text.SPACE = true.

(** Joined tokens are left alone by the substitution... *)
Lemma sub_nonword_join (T : list str) :
  forallb (Cleaned.token rt) T = true ->
  forall b, Text.sub_nonword_from rt b (Text.join [Text.SPACE] T)
            = Text.join [Text.SPACE] T.
Proof.
  induction T as [|t rest IH]; intros HT b; [reflexivity|].
  cbn in HT. apply andb_prop in HT. destruct HT as [Ht Hrest].
  destruct (token_inv t Ht) as (Hne & Hw & _).
  cbn [Text.join]. destruct rest as [|t' rest'].
  - rewrite <- (app_nil_r t) at 1.
    rewrite sub_nonword_word_prefix by (auto). cbn. apply app_nil_r.
  - rewrite sub_nonword_word_prefix by (auto). f_equal.
    cbn [app Text.sub_nonword_from]. rewrite space_not_word. f_equal.
    apply IH. exact Hrest.
Qed.

(** ... and split back into the same tokens. *)
Lemma split_join (T : list str) :
  forallb (Cleaned.token rt) T = true ->
  Text.split rt (Text.join [Text.SPACE] T) = T.
Proof.
  unfold Text.split.
  induction T as [|t rest IH]; intros HT; [reflexivity|].
  cbn in HT. apply andb_prop in HT. destruct HT as [Ht Hrest].
  destruct (token_inv t Ht) as (Hne & _ & Hs).
  assert (Hrev : rev t ++ [] <> []).
  { rewrite app_nil_r. intros E. apply (f_equal (@List.length _)) in E.
    rewrite length_rev in E. destruct t; [contradiction|discriminate]. }
  cbn [Text.join]. destruct rest as [|t' rest'].
  - rewrite <- (app_nil_r t) at 1.
    rewrite split_from_token_prefix by exact Hs. cbn [Text.split_from].
    rewrite flush_nonempty by exact Hrev.
    rewrite app_nil_r, rev_involutive. reflexivity.
  - rewrite split_from_token_prefix by exact Hs.
    cbn [app Text.split_from]. rewrite space_is_white.
    rewrite flush_nonempty by exact Hrev.
    rewrite app_nil_r, rev_involutive. f_equal. apply IH. exact Hrest.
Qed.

(** The tokens of a substituted text are clean, and made of its characters. *)
Lemma split_sub_tokens (x : str) (t : str) :
  In t (Text.split rt (Text.sub_nonword rt x)) ->
  Cleaned.token rt t = true /\ forall c, In c t -> In c x.
Proof.
  intros Ht. unfold Text.split in Ht.
  destruct (split_from_tokens _ [] t (fun c (F : In c []) => match F with end) Ht)
    as [Hne Hc].
  assert (Hchar : forall c, In c t ->
            str_isspace rt c = false /\ re_word rt c = true /\ In c x).
  { intros c Hin. destruct (Hc c Hin) as [Hs [[]|Hsub]].
    destruct (sub_nonword_chars _ _ _ Hsub) as [->|[Hx Hw]].
    - rewrite space_is_white in Hs. discriminate.
    - auto. }
  split.
  - unfold Cleaned.token. destruct t as [|c0 t0]; [contradiction|].
    cbn [Contract.nonempty andb]. apply andb_true_intro. split.
    + apply forallb_forall. intros c Hin. apply (Hchar c Hin).
    + apply forallb_forall. intros c Hin. apply negb_true_iff. apply (Hchar c Hin).
  - intros c Hin. apply (Hchar c Hin).
Qed.

Lemma join_chars (T : list str) c :
  In c (Text.join [Text.SPACE] T) -> c = Text.SPACE \/ exists t, In t T /\ In c t.
Proof.
  induction T as [|t rest IH]; [contradiction|].
  cbn [Text.join]. destruct rest as [|t' rest'].
  - intros H. right. exists t. split; [left; reflexivity|exact H].
  - intros H. apply in_app_or in H. destruct H as [H|[<-|H]].
    + right. exists t. split; [left; reflexivity|exact H].
    + left. reflexivity.
    + destruct (IH H) as [E|(u & Hu & Hc)]; [left; exact E|].
      right. exists u. split; [right; exact Hu|exact Hc].
Qed.

End Tables.

End SecondPass.

(** ** The ASCII tables meet the assumptions on the runtime *)

Module DemoTextFacts.

Import Py.

Lemma ascii_tables_ok : Cleaned.tables_ok DemoText.runtime DemoText.ascii_lowered.
Proof.
  unfold Cleaned.tables_ok. cbn [DemoText.runtime str_lower re_word str_isspace].
  split; [|split; [|repeat split]].
  - intros x. induction x as [|c x IH]; [reflexivity|].
    cbn [DemoText.ascii_lower map forallb]. fold (DemoText.ascii_lower x).
    rewrite IH, andb_true_r. unfold DemoText.ascii_lowered.
    destruct (DemoText.in_range 65 90 c) eqn:E; [|rewrite E; reflexivity].
    unfold DemoText.in_range in *. apply andb_prop in E. destruct E as [E1 E2].
    apply N.leb_le in E1, E2. apply negb_true_iff, andb_false_iff. right.
    apply N.leb_gt. lia.
  - intros t. induction t as [|c t IH]; [reflexivity|].
    cbn [DemoText.ascii_lower map forallb]. fold (DemoText.ascii_lower t).
    intros H. apply andb_prop in H. destruct H as [Hc Ht].
    rewrite (IH Ht). unfold DemoText.ascii_lowered in Hc.
    apply negb_true_iff in Hc. rewrite Hc. reflexivity.
Qed.

End DemoTextFacts.

Module CleaningClaims.

Import Py.

(** C5. For every input string, [clean_text] of train_model.py returns the
    string obtained by lowercasing, replacing every maximal run of non-word
    characters by one space, splitting on white space, dropping the tokens
    found in the Spanish stop-word list and joining the rest with single
    spaces. *)
Theorem clean_text_meets_its_description (rt : Runtime) (s : str) :
  TrainModel.clean_text rt s = CleanSpec.clean_text_spec rt s.
Proof.
  unfold TrainModel.clean_text, CleanSpec.clean_text_spec, CleanSpec.drop_stopwords,
    TrainModel.spanish_stopwords.
  rewrite TextFacts.join_rejoin, TextFacts.split_tokens, TextFacts.sub_nonword_collapse.
  f_equal. apply filter_ext. intros w. apply TextFacts.contains_in_dec.
Qed.

(** C6. The cleaning function of predict_priority.py and the one of
    train_model.py return the same result on every input string, read with
    the same runtime tables and the same stop-word corpus. *)
Theorem clean_text_same_at_inference_and_training (rt : Runtime) (s : str) :
  PredictPriority.clean_text rt s = TrainModel.clean_text rt s.
Proof. reflexivity. Qed.

End CleaningClaims.

Module InferenceClaims.

Import Py.

Lemma filter_idem {A : Type} (f : A -> bool) (l : list A) :
  filter f (filter f l) = filter f l.
Proof.
  induction l as [|x l IH]; [reflexivity|].
  cbn [filter]. destruct (f x) eqn:E; [cbn [filter]; rewrite E, IH|]; auto.
Qed.

(** C10. Given runtime tables in which [str.lower] produces code points it
    leaves alone and the space is white and not a word character, the
    output of [clean_text] is a list of non-empty tokens of lowered word
    characters, none a stop word, joined by single spaces; and cleaning it
    again returns it unchanged, in both scripts. *)
Theorem clean_text_idempotent
    (rt : Runtime) (lowered : char -> bool) (s : str) :
  Cleaned.tables_ok rt lowered ->
  (exists T,
     TrainModel.clean_text rt s = Text.join (lit " ") T /\
     forallb (Cleaned.token rt) T = true /\
     forallb (forallb lowered) T = true /\
     forallb (fun t => negb (Text.contains (TrainModel.spanish_stopwords rt) t)) T = true) /\
  TrainModel.clean_text rt (TrainModel.clean_text rt s) = TrainModel.clean_text rt s /\
  PredictPriority.clean_text rt (PredictPriority.clean_text rt s)
  = PredictPriority.clean_text rt s.
Proof.
  intros (Hlow1 & Hlow2 & Hsp_low & Hsp_word & Hsp_white).
  change (PredictPriority.clean_text rt) with (TrainModel.clean_text rt).
  unfold TrainModel.clean_text at 1 3 4 6.
  change (lit " ") with [Text.SPACE].
  set (keep := fun w => negb (Text.contains (TrainModel.spanish_stopwords rt) w)).
  set (L := Text.split rt (Text.sub_nonword rt (str_lower rt s))).
  set (T := filter keep L).
  assert (HT : forallb (Cleaned.token rt) T = true).
  { apply forallb_forall. intros t Ht. apply filter_In in Ht. destruct Ht as [Ht _].
    apply (SecondPass.split_sub_tokens rt Hsp_white _ _ Ht). }
  assert (HTlow : forallb (forallb lowered) T = true).
  { apply forallb_forall. intros t Ht. apply filter_In in Ht. destruct Ht as [Ht _].
    apply forallb_forall. intros c Hc.
    destruct (SecondPass.split_sub_tokens rt Hsp_white _ _ Ht) as [_ Hin].
    specialize (Hlow1 s). rewrite forallb_forall in Hlow1. apply Hlow1, Hin, Hc. }
  assert (HTkeep : forallb keep T = true).
  { apply forallb_forall. intros t Ht. apply filter_In in Ht. apply Ht. }
  assert (Hlowered : forallb lowered (Text.join [Text.SPACE] T) = true).
  { apply forallb_forall. intros c Hc.
    destruct (SecondPass.join_chars T c Hc) as [->|(t & Ht & Hct)]; [exact Hsp_low|].
    rewrite forallb_forall in HTlow. specialize (HTlow t Ht).
    rewrite forallb_forall in HTlow. apply HTlow, Hct. }
  split; [exists T; auto|].
  assert (Hagain : TrainModel.clean_text rt (Text.join [Text.SPACE] T)
                   = Text.join [Text.SPACE] T).
  { unfold TrainModel.clean_text. change (lit " ") with [Text.SPACE].
    rewrite (Hlow2 _ Hlowered). unfold Text.sub_nonword.
    rewrite (SecondPass.sub_nonword_join rt Hsp_word T HT false).
    rewrite (SecondPass.split_join rt Hsp_white T HT).
    fold keep. unfold T. rewrite filter_idem. reflexivity. }
  split; exact Hagain.
Qed.

Lemma clean_text_idempotent_witness :
  (exists T,
     TrainModel.clean_text DemoText.runtime DemoText.ejemplo = Text.join (lit " ") T /\
     forallb (Cleaned.token DemoText.runtime) T = true /\
     forallb (forallb DemoText.ascii_lowered) T = true /\
     forallb (fun t => negb (Text.contains
                (TrainModel.spanish_stopwords DemoText.runtime) t)) T = true) /\
  TrainModel.clean_text DemoText.runtime
    (TrainModel.clean_text DemoText.runtime DemoText.ejemplo)
  = TrainModel.clean_text DemoText.runtime DemoText.ejemplo /\
  PredictPriority.clean_text DemoText.runtime
    (PredictPriority.clean_text DemoText.runtime DemoText.ejemplo)
  = PredictPriority.clean_text DemoText.runtime DemoText.ejemplo.
Proof.
  apply (clean_text_idempotent DemoText.runtime DemoText.ascii_lowered DemoText.ejemplo).
  exact DemoTextFacts.ascii_tables_ok.
Defined.

(** C8. With a loaded classifier and vectorizer that match (finite rows of
    the fitted width, one probability per class, at least one class),
    [predict_priority] returns, for every input string, exactly one label,
    which is one of the classifier's trained labels; it does not raise. *)
Theorem predict_priority_returns_a_trained_label
    (rt : Runtime) (clf : Sk.Classifier) (vectorizer : Sk.TfidfVectorizer)
    (issue_text : str) :
  Contract.matching clf vectorizer ->
  exists label,
    PredictPriority.predict_priority rt clf vectorizer issue_text = Ok label /\
    In label (Sk.clf_classes clf).
Proof.
  intros (Hwidth & Hfin & Hlen & Hne).
  unfold PredictPriority.predict_priority.
  set (x := Sk.tfidf_transform vectorizer (PredictPriority.clean_text rt issue_text)).
  cbn [PredictPriority.clf_predict].
  unfold Sk.clf_predict_proba. unfold x at 1 2.
  rewrite Hwidth, Nat.eqb_refl, Hfin. cbn [negb rbind].
  set (pr := Sk.clf_proba clf x).
  assert (Hpr : List.length pr = List.length (Sk.clf_classes clf)) by apply Hlen.
  destruct (Np.argmax pr) as [i|e] eqn:Harg.
  - pose proof (NpFacts.argmax_lt_length pr i Harg) as Hi.
    cbn [rbind]. unfold index at 1.
    destruct (nth_error (Sk.clf_classes clf) i) as [lab|] eqn:Hlab;
      [|apply nth_error_None in Hlab; lia].
    cbn. exists lab. split; [reflexivity|]. apply (nth_error_In _ _ Hlab).
  - exfalso. destruct pr as [|y pr']; [|discriminate].
    destruct (Sk.clf_classes clf); [discriminate Hne|discriminate Hpr].
Qed.

Lemma predict_priority_returns_a_trained_label_witness :
  exists label,
    PredictPriority.predict_priority DemoText.runtime DemoText.forest
      DemoText.vectorizer DemoText.ejemplo = Ok label /\
    In label (Sk.clf_classes DemoText.forest).
Proof.
  apply (predict_priority_returns_a_trained_label DemoText.runtime DemoText.forest
           DemoText.vectorizer DemoText.ejemplo).
  repeat split; intros; reflexivity.
Defined.

End InferenceClaims.

(** ** The definitions at work on small inputs *)

Module Examples.

Import Py.

Example predict_demo_ticket :
  App.predict Demo.ticket Demo.process = (Demo.process, Ok Demo.reply).
Proof. reflexivity. Qed.

Example predict_stray_ticket :
  App.predict Demo.stray_ticket Demo.process = (Demo.process, Ok Demo.reply).
Proof. reflexivity. Qed.

Example strict_encoder_rejects_stray_ticket :
  Sk.predict_proba Demo.strict_estimator (App.frame Demo.stray_ticket) = Raise ValueError
  /\ Sk.predict_proba Demo.strict_estimator (App.frame Demo.ticket)
     = Ok [Demo.quarter; Demo.half; Demo.quarter].
Proof. split; reflexivity. Qed.

(** [round(100 * 0.005)] is 0: the product is the float 0.5, a tie. *)
Example round_of_a_tie :
  fmul f100 Demo.five_thousandths = Demo.half /\
  round (fmul f100 Demo.five_thousandths) = Ok 0.
Proof. split; reflexivity. Qed.

(** 2.5 and 1.5 both round to 2, -1.5 to -2, one third to 0. *)
Example round_halves :
  round (fdiv (of_pos 5) (of_pos 2)) = Ok 2 /\
  round (fdiv (of_pos 3) (of_pos 2)) = Ok 2 /\
  round (SFopp (fdiv (of_pos 3) (of_pos 2))) = Ok (-2) /\
  round (fdiv (of_pos 1) (of_pos 3)) = Ok 0.
Proof. repeat split; reflexivity. Qed.

Example argmax_takes_the_first_maximum :
  Np.argmax [Demo.quarter; Demo.half; Demo.half] = Ok 1%nat.
Proof. reflexivity. Qed.

(** With a NaN in the row the two maxima part ways. *)
Example maxima_differ_on_nan :
  Np.max [Demo.quarter; S754_nan; Demo.half] = Ok S754_nan /\
  Py.max [Demo.quarter; S754_nan; Demo.half] = Ok Demo.half.
Proof. split; reflexivity. Qed.

(** A repeated label keeps its first position and its last value. *)
Example dict_of_repeated_label :
  dict_of_items (combine [lit "a"; lit "b"; lit "a"] [Demo.half; Demo.quarter; f0])
  = [(lit "a", f0); (lit "b", Demo.quarter)].
Proof. reflexivity. Qed.

Example clean_text_ejemplo :
  PredictPriority.clean_text DemoText.runtime DemoText.ejemplo
  = lit "aire acondicionado funciona habitacion 101".
Proof. reflexivity. Qed.

Example clean_text_punctuation :
  TrainModel.clean_text DemoText.runtime (lit "  Hola,,  el   MUNDO!! no_se  ")
  = lit "hola mundo no_se".
Proof. reflexivity. Qed.

Example predict_priority_ejemplo :
  PredictPriority.predict_priority DemoText.runtime DemoText.forest
    DemoText.vectorizer DemoText.ejemplo = Ok (lit "baja").
Proof. reflexivity. Qed.

End Examples.

(** ** The rounded product on either side of an integer *)

Module BoundsFacts.
Import Py Rounding Bounds RoundingFacts.

Lemma round_nearest_even_lower m k mrs K :
  0 <= k -> shifted m k mrs -> K * 2 ^ k <= m ->
  K <= round_nearest_even (shr_m mrs) (loc_of_shr_record mrs).
Proof.
  intros Hk (rem & Hq & Hrem & Hm & Hex) Hle.
  pose proof (pow2_pos k Hk) as Hpos.
  assert (HqK : K <= shr_m mrs) by nia.
  destruct mrs as [q r s]. cbn [shr_m shr_r shr_s] in *.
  destruct r, s; cbn [loc_of_shr_record round_nearest_even];
    try destruct (Z.even q); lia.
Qed.

Lemma binary_round_aux_between P E K :
  0 < P -> E <= 0 -> P <= 100 * 2 ^ (- E) -> 0 <= K ->
  (P <= K * 2 ^ (- E) -> at_most K (binary_round_aux prec emax false P E loc_Exact)) /\
  (0 < K -> K * 2 ^ (- E) <= P ->
   at_least K (binary_round_aux prec emax false P E loc_Exact)).
Proof.
  intros HP HE Hle HK. unfold binary_round_aux.
  destruct (shr_fexp prec emax P E loc_Exact) as [mrs1 e1] eqn:H1.
  apply shr_fexp_bound in H1; try lia. destruct H1 as [He1 Hsh1].
  set (m1 := round_nearest_even (shr_m mrs1) (loc_of_shr_record mrs1)).
  assert (Hpow1 : 2 ^ (- E) = 2 ^ (- e1) * 2 ^ (e1 - E)).
  { rewrite <- Z.pow_add_r by lia. f_equal. lia. }
  assert (Hm1 : 0 <= m1 <= 100 * 2 ^ (- e1)).
  { apply (round_nearest_even_bound P (e1 - E) mrs1); [lia|exact Hsh1|].
    rewrite <- Z.mul_assoc, <- Hpow1. exact Hle. }
  destruct (shr_fexp prec emax m1 e1 loc_Exact) as [mrs2 e2] eqn:H2.
  apply shr_fexp_bound in H2; try lia. destruct H2 as [He2 Hsh2].
  destruct Hsh2 as (rem & Hq & Hrem & Hm & _).
  assert (Hpow2 : 2 ^ (- e1) = 2 ^ (- e2) * 2 ^ (e2 - e1)).
  { rewrite <- Z.pow_add_r by lia. f_equal. lia. }
  pose proof (pow2_pos (e2 - e1)) as Hp21. pose proof (pow2_pos (- e2)) as Hp2.
  pose proof (pow2_pos (e1 - E)) as Hp1E. pose proof (pow2_pos (- e1)) as Hp1.
  assert (Hle_emax : (e2 <=? emax - prec) = true)
    by (apply Z.leb_le; unfold emax, prec; lia).
  split.
  - intros HPK.
    assert (Hm1K : m1 <= K * 2 ^ (- e1)).
    { apply (round_nearest_even_bound P (e1 - E) mrs1); [lia|exact Hsh1|].
      rewrite <- Z.mul_assoc, <- Hpow1. exact HPK. }
    destruct (shr_m mrs2) as [|m2|m2] eqn:Eq2; [exact I| |lia].
    rewrite Hle_emax. cbn [at_most]. split; [lia|].
    rewrite Hpow2 in Hm1K. nia.
  - intros HK0 HPK.
    assert (Hm1K : K * 2 ^ (- e1) <= m1).
    { apply (round_nearest_even_lower P (e1 - E) mrs1); [lia|exact Hsh1|].
      rewrite <- Z.mul_assoc, <- Hpow1. exact HPK. }
    rewrite Hpow2 in Hm1K.
    assert (Hq2 : K * 2 ^ (- e2) <= shr_m mrs2) by nia.
    destruct (shr_m mrs2) as [|m2|m2] eqn:Eq2; [nia| |lia].
    rewrite Hle_emax. cbn [at_least]. split; [lia|exact Hq2].
Qed.


Lemma round_at_most K x : 0 <= K -> at_most K x ->
  exists k, round x = Ok k /\ 0 <= k <= K.
Proof.
  intros HK. destruct x as [s|s| |[|] m e]; cbn [at_most]; try contradiction.
  - intros _. exists 0. split; [reflexivity|lia].
  - intros [He Hm]. eexists. split; [reflexivity|].
    cbn [cond_Zopp]. destruct e as [|p|p]; try lia; cbn [round_half_even].
    + change (2 ^ (- 0)) with 1 in Hm. change (2 ^ 0) with 1. lia.
    + change (- Z.neg p) with (Z.pos p) in Hm.
      rewrite Z.pow_pos_fold.
      pose proof (pow2_pos (Z.pos p)) as Hd.
      set (d := 2 ^ Z.pos p) in *.
      assert (Hd0 : 0 < d) by lia.
      pose proof (Z.div_mod (Z.pos m) d) as Hdm.
      pose proof (Z.mod_pos_bound (Z.pos m) d Hd0) as Hr.
      set (q := Z.pos m / d) in *. set (r := Z.pos m mod d) in *.
      assert (Hq0 : 0 <= q) by (apply Z.div_pos; lia).
      assert (Hq : q <= K) by nia.
      destruct (Z.compare_spec (2 * r) d) as [E|E|E].
      * destruct (Z.even q); [lia|]. assert (q <> K) by nia. lia.
      * lia.
      * assert (q <> K) by nia. lia.
Qed.

Lemma round_at_least K x : at_least K x -> exists k, round x = Ok k /\ K <= k.
Proof.
  destruct x as [s|s| |[|] m e]; cbn [at_least]; try contradiction.
  intros [He Hm]. eexists. split; [reflexivity|].
  cbn [cond_Zopp]. destruct e as [|p|p]; try lia; cbn [round_half_even].
  - change (2 ^ (- 0)) with 1 in Hm. change (2 ^ 0) with 1. lia.
  - change (- Z.neg p) with (Z.pos p) in Hm.
    rewrite Z.pow_pos_fold.
    pose proof (pow2_pos (Z.pos p)) as Hd.
    set (d := 2 ^ Z.pos p) in *.
    assert (Hd0 : 0 < d) by lia.
    pose proof (Z.div_mod (Z.pos m) d) as Hdm.
    pose proof (Z.mod_pos_bound (Z.pos m) d Hd0) as Hr.
    set (q := Z.pos m / d) in *. set (r := Z.pos m mod d) in *.
    assert (Hq : K <= q) by nia.
    destruct (Z.compare_spec (2 * r) d) as [E|E|E];
      try destruct (Z.even q); lia.
Qed.

Lemma digits_ge p : 2 ^ Zpos (digits2_pos p) <= 2 * Zpos p.
Proof.
  rewrite digits2_size. pose proof (Pos.size_le p) as H.
  apply Pos2Z.pos_le_pos in H. rewrite Pos2Z.inj_pow in H. exact H.
Qed.

(** A float in [0, 1], with what its being canonical adds. *)
Lemma prob01_shape x : Contract.prob01 x = true ->
  (exists s, x = S754_zero s) \/
  (exists m e, x = S754_finite false m e /\ e <= -52 /\
               Zpos m <= 2 ^ (- e) /\ Zpos m < 2 ^ 53 /\
               (e = -52 -> Zpos m = 2 ^ 52)).
Proof.
  intros H. destruct (prob01_inv x H) as [Hz|(m & e & -> & He & Hm)]; [left; exact Hz|].
  right. exists m, e. split; [reflexivity|]. split; [exact He|]. split; [exact Hm|].
  unfold Contract.prob01 in H.
  apply andb_prop in H. destruct H as [H _].
  apply andb_prop in H. destruct H as [Hv _].
  unfold is_float, valid_binary, bounded, canonical_mantissa in Hv.
  apply andb_prop in Hv. destruct Hv as [Hc _].
  apply Z.eqb_eq in Hc. rewrite fexp_eq in Hc.
  pose proof (digits_lt m) as Hd. pose proof (digits_ge m) as Hg.
  split.
  - assert (Hs : Z.pos (digits2_pos m) <= 53) by lia.
    assert (H2 : 2 ^ Z.pos (digits2_pos m) <= 2 ^ 53)
      by (apply Z.pow_le_mono_r; lia).
    lia.
  - intros ->. assert (Hs : Z.pos (digits2_pos m) = 53) by lia.
    rewrite Hs in Hg. change (2 ^ 53) with (2 * 2 ^ 52) in Hg.
    change (2 ^ (- -52)) with (2 ^ 52) in Hm. lia.
Qed.


Lemma thresh_value : App.thresh_literal = S754_finite false 4953959590107546 (-53).
Proof. reflexivity. Qed.

Lemma fmul_product m e :
  fmul f100 (S754_finite false m e)
  = binary_round_aux prec emax false (100 * 2 ^ 46 * Z.pos m) (-46 + e) loc_Exact.
Proof.
  rewrite f100_value. unfold fmul. cbn [SFmul xorb]. rewrite Pos2Z.inj_mul.
  reflexivity.
Qed.

(** On either side of the threshold, [100 * x] is on the same side of 55. *)
Lemma fmul_vs_thresh x : Contract.prob01 x = true ->
  (flt x App.thresh_literal = true -> at_most 55 (fmul f100 x)) /\
  (flt x App.thresh_literal = false -> at_least 55 (fmul f100 x)).
Proof.
  intros H. rewrite thresh_value.
  destruct (prob01_shape x H) as [[s ->]|(m & e & -> & He & Hm & Hm53 & H52)].
  - split; [intros _; exact I|discriminate].
  - rewrite fmul_product.
    assert (Hpow : 2 ^ (- (-46 + e)) = 2 ^ 46 * 2 ^ (- e)).
    { rewrite <- Z.pow_add_r by lia. f_equal. lia. }
    pose proof (pow2_pos (- e)) as Hpe.
    assert (H46 : 0 < 2 ^ 46) by (apply pow2_pos; lia).
    assert (Hctl : 0 < 100 * 2 ^ 46 * Z.pos m /\ -46 + e <= 0 /\
                   100 * 2 ^ 46 * Z.pos m <= 100 * 2 ^ (- (-46 + e))).
    { rewrite Hpow. split; [lia|]. split; [lia|]. nia. }
    destruct Hctl as (HP & HE & Hle).
    destruct (binary_round_aux_between _ _ 55 HP HE Hle ltac:(lia)) as [Hup Hlow].
    set (y := binary_round_aux prec emax false (100 * 2 ^ 46 * Z.pos m) (-46 + e) loc_Exact)
      in *.
    clearbody y.
    unfold flt, SFltb, SFcompare.
    destruct (Z.compare_spec e (-53)) as [E|E|E].
    + subst e.
      destruct (Pos.compare_cont Eq m 4953959590107546) eqn:Ec.
      * split; [discriminate|]. intros _. apply Hlow; [lia|].
        apply Pos.compare_eq in Ec. subst m. vm_compute. discriminate.
      * split; [|discriminate]. intros _. apply Hup.
        apply Pos.compare_lt_iff in Ec. apply Pos2Z.pos_lt_pos in Ec.
        rewrite Hpow. change (2 ^ (- -53)) with 9007199254740992. lia.
      * split; [discriminate|]. intros _. apply Hlow; [lia|].
        apply Pos.compare_gt_iff in Ec. apply Pos2Z.pos_lt_pos in Ec.
        rewrite Hpow. change (2 ^ (- -53)) with 9007199254740992. lia.
    + split; [|discriminate]. intros _. apply Hup. rewrite Hpow.
      assert (H54 : 2 ^ 54 <= 2 ^ (- e)) by (apply Z.pow_le_mono_r; lia).
      change (2 ^ 54) with 18014398509481984 in H54.
      change (2 ^ 53) with 9007199254740992 in Hm53. nia.
    + split; [discriminate|]. intros _. apply Hlow; [lia|].
      assert (e = -52) by lia. subst e. rewrite (H52 eq_refl). vm_compute. discriminate.
Qed.

End BoundsFacts.

(** ** Degenerate rows, and how the fields of a response go together *)

Module HandlerEdgeFacts.

Import Py FloatOrder App.

Lemma fold_maximum_nan r : forall x,
  x = S754_nan \/ In S754_nan r -> fold_left Np.maximum r x = S754_nan.
Proof.
  induction r as [|y r IH]; intros x H; simpl.
  - destruct H as [H|[]]. exact H.
  - apply IH. destruct H as [->|[->|H]].
    + left. destruct y; reflexivity.
    + left. destruct x; reflexivity.
    + right. exact H.
Qed.

Lemma max_of_nan_row probs : In S754_nan probs -> Np.max probs = Ok S754_nan.
Proof.
  destruct probs as [|x r]; [contradiction|]. intros H. simpl. f_equal.
  apply fold_maximum_nan. destruct H as [H|H]; [left; exact H|right; exact H].
Qed.

Lemma argmax_in_range probs :
  Contract.nonempty probs = true ->
  exists i, Np.argmax probs = Ok i /\ (i < List.length probs)%nat.
Proof.
  destruct probs as [|x r]; [discriminate|]. intros _.
  eexists. split; [reflexivity|]. apply NpFacts.argmax_lt_length. reflexivity.
Qed.

(** The handler up to [round]: whatever [round] does is the outcome. *)
Lemma predict_until_round p s probs m :
  Sk.predict_proba (pipe s) (frame p) = Ok probs ->
  List.length probs = List.length (LABELS s) ->
  Np.max probs = Ok m ->
  (forall e, round (fmul f100 m) = Raise e -> predict p s = (s, Raise e)) /\
  (forall k, round (fmul f100 m) = Ok k -> exists r, predict p s = (s, Ok r)).
Proof.
  intros Hrow Hlen Hmax.
  assert (Hne : Contract.nonempty probs = true)
    by (destruct probs; [discriminate Hmax|reflexivity]).
  destruct (argmax_in_range probs Hne) as (i & Harg & Hi).
  destruct (nth_error (LABELS s) i) as [lab|] eqn:Hlab;
    [|apply nth_error_None in Hlab; lia].
  split.
  - intros e He. unfold predict, bind, global, lift, ret.
    rewrite Hrow, Hmax, Harg. unfold index. rewrite Hlab, He. reflexivity.
  - intros k Hk. eexists. apply (AppFacts.predict_run p s probs m i lab k); try assumption.
    unfold index. rewrite Hlab. reflexivity.
Qed.

Lemma fle_inf_left m : fle (S754_infinity false) m = true -> m = S754_infinity false.
Proof. destruct m as [s|[|]| |s mm e]; simpl; try discriminate; reflexivity. Qed.

End HandlerEdgeFacts.

Module HandlerEdges.

Import Py FloatOrder App.

(** X1. A NaN anywhere in the estimator's row makes the handler raise
    [ValueError] (from [round]) instead of answering, and leaves the
    process as it was. *)
Theorem nan_row_raises_value_error
    (s : Process) (p : Payload) (probs : list float) :
  Sk.predict_proba (pipe s) (frame p) = Ok probs ->
  List.length probs = List.length (LABELS s) ->
  In S754_nan probs ->
  predict p s = (s, Raise ValueError).
Proof.
  intros Hrow Hlen Hnan.
  pose proof (HandlerEdgeFacts.max_of_nan_row probs Hnan) as Hmax.
  apply (HandlerEdgeFacts.predict_until_round p s probs S754_nan Hrow Hlen Hmax).
  reflexivity.
Qed.

Lemma nan_row_raises_value_error_witness :
  predict Demo.ticket (DemoEdge.process_of DemoEdge.nan_estimator)
  = (DemoEdge.process_of DemoEdge.nan_estimator, Raise ValueError).
Proof.
  apply (nan_row_raises_value_error (DemoEdge.process_of DemoEdge.nan_estimator)
           Demo.ticket DemoEdge.nan_row);
    [reflexivity | reflexivity | right; left; reflexivity].
Defined.

(** X2. A row without NaN that holds plus infinity makes the handler raise
    [OverflowError] (from [round]) instead of answering. *)
Theorem infinite_row_raises_overflow_error
    (s : Process) (p : Payload) (probs : list float) :
  Sk.predict_proba (pipe s) (frame p) = Ok probs ->
  List.length probs = List.length (LABELS s) ->
  forallb (fun x => negb (is_nan x)) probs = true ->
  In (S754_infinity false) probs ->
  predict p s = (s, Raise OverflowError).
Proof.
  intros Hrow Hlen Hnonan Hinf.
  assert (Hne : Contract.nonempty probs = true)
    by (destruct probs; [contradiction|reflexivity]).
  destruct (NpFacts.argmax_max probs Hne (AppFacts.no_nan_forallb _ Hnonan))
    as (i & m & _ & Hmax & _ & Hle & _).
  destruct (In_nth_error _ _ Hinf) as [j Hj].
  pose proof (HandlerEdgeFacts.fle_inf_left m (Hle j _ Hj)) as ->.
  apply (HandlerEdgeFacts.predict_until_round p s probs _ Hrow Hlen Hmax).
  reflexivity.
Qed.

Lemma infinite_row_raises_overflow_error_witness :
  predict Demo.ticket (DemoEdge.process_of DemoEdge.inf_estimator)
  = (DemoEdge.process_of DemoEdge.inf_estimator, Raise OverflowError).
Proof.
  apply (infinite_row_raises_overflow_error
           (DemoEdge.process_of DemoEdge.inf_estimator) Demo.ticket DemoEdge.inf_row);
    [reflexivity | reflexivity | reflexivity | right; left; reflexivity].
Defined.

End HandlerEdges.

Module ResponseFacts.

Import Py FloatOrder App.

Section Dict.

Context {V : Type}.

(** Lookup after an insertion. *)
Lemma dict_get_set (d : dict V) k v k' :
  dict_get (dict_set d k v) k' = if str_eqb k' k then Some v else dict_get d k'.
Proof.
  induction d as [|[k0 v0] r IH]; simpl; [reflexivity|].
  destruct (str_eqb k k0) eqn:E; simpl.
  - apply DictFacts.str_eqb_eq in E. subst k0.
    destruct (str_eqb k' k); reflexivity.
  - rewrite IH. destruct (str_eqb k' k0) eqn:E0; [|reflexivity].
    apply DictFacts.str_eqb_eq in E0. subst k0.
    destruct (str_eqb k' k) eqn:E1; [|reflexivity].
    apply DictFacts.str_eqb_eq in E1. subst k'.
    rewrite DictFacts.str_eqb_refl in E. discriminate.
Qed.

Lemma keys_dict_set (d : dict V) k v k' :
  In k' (keys (dict_set d k v)) <-> k' = k \/ In k' (keys d).
Proof.
  induction d as [|[k0 v0] r IH]; simpl.
  - split; intros [H|H]; auto.
  - destruct (str_eqb k k0) eqn:E; simpl.
    + apply DictFacts.str_eqb_eq in E. subst k0. split; intros H; [tauto|].
      destruct H as [->|H]; [left; reflexivity|exact H].
    + rewrite IH. tauto.
Qed.

Lemma NoDup_dict_set (d : dict V) k v :
  NoDup (keys d) -> NoDup (keys (dict_set d k v)).
Proof.
  induction d as [|[k0 v0] r IH]; simpl; intros H.
  - constructor; [intros []|constructor].
  - inversion H as [|? ? Hnotin Hr]; subst.
    destruct (str_eqb k k0) eqn:E; simpl.
    + constructor; assumption.
    + constructor; [|apply IH; exact Hr].
      intros Hin. apply keys_dict_set in Hin. destruct Hin as [->|Hin].
      * rewrite DictFacts.str_eqb_refl in E. discriminate.
      * contradiction.
Qed.

Lemma fold_dict_set (items : list (str * V)) : forall d k,
  NoDup (keys d) ->
  let d' := fold_left (fun d kv => dict_set d (fst kv) (snd kv)) items d in
  NoDup (keys d') /\
  (forall k', In k' (keys d') <-> In k' (keys d) \/ In k' (map fst items)) /\
  dict_get d' k
  = fold_left (fun acc kv => if str_eqb k (fst kv) then Some (snd kv) else acc)
              items (dict_get d k).
Proof.
  induction items as [|[k0 v0] r IH]; intros d k Hd; cbn zeta.
  - split; [exact Hd|]. split; [|reflexivity]. intros k'. simpl. tauto.
  - cbn [fold_left fst snd map].
    destruct (IH (dict_set d k0 v0) k (NoDup_dict_set d k0 v0 Hd)) as (H1 & H2 & H3).
    cbn zeta in H1, H2, H3.
    split; [exact H1|]. split.
    + intros k'. rewrite H2, keys_dict_set. simpl. intuition.
    + rewrite H3, dict_get_set. reflexivity.
Qed.

End Dict.

Lemma predict_congr p1 p2 s :
  Sk.predict_proba (pipe s) (frame p1) = Sk.predict_proba (pipe s) (frame p2) ->
  predict p1 s = predict p2 s.
Proof.
  intros H. unfold predict, bind, global, lift, ret.
  rewrite H. reflexivity.
Qed.

End ResponseFacts.

Module ResponseShape.

Import Py FloatOrder App.

(** X3. For a row of probabilities in [0, 1], the review flag and the
    score agree: a response flagged for review has a score of at most 55,
    one that is not flagged has a score of at least 55. *)
Theorem review_flag_agrees_with_score
    (d : str -> option Sk.Estimator) (s : Process) (p : Payload)
    (probs : list float) (r : Response) :
  startup d = Ok s ->
  Sk.predict_proba (pipe s) (frame p) = Ok probs ->
  Contract.row_ok (Sk.classes_ (pipe s)) probs = true ->
  forallb Contract.prob01 probs = true ->
  snd (predict p s) = Ok r ->
  (needs_review r = true -> score r <= 55) /\
  (needs_review r = false -> 55 <= score r).
Proof.
  intros Hstart Hrow Hok H01 Hres.
  destruct (Serving.response_fields d s p probs r Hstart Hrow Hok Hres)
    as (m & i & Hmax & _ & _ & Hround & _ & Hnr & _).
  destruct (AppFacts.row_ok_inv _ _ Hok) as (_ & _ & Hne & Hnan).
  destruct (NpFacts.argmax_max probs Hne Hnan) as (i' & m' & _ & Hmax' & Hnth & _).
  rewrite Hmax in Hmax'. inversion Hmax'; subst m'.
  pose proof (ServingTotal.forallb_nth _ _ _ _ H01 Hnth) as Hm.
  destruct (BoundsFacts.fmul_vs_thresh m Hm) as [Hup Hlow].
  rewrite Hnr. split; intros Hflag.
  - destruct (BoundsFacts.round_at_most 55 _ ltac:(lia) (Hup Hflag)) as (k & Hk & Hb).
    rewrite Hround in Hk. inversion Hk; subst k. lia.
  - destruct (BoundsFacts.round_at_least 55 _ (Hlow Hflag)) as (k & Hk & Hb).
    rewrite Hround in Hk. inversion Hk; subst k. exact Hb.
Qed.

Lemma review_flag_agrees_with_score_witness :
  (needs_review Demo.reply = true -> score Demo.reply <= 55) /\
  (needs_review Demo.reply = false -> 55 <= score Demo.reply).
Proof.
  apply (review_flag_agrees_with_score Demo.disk Demo.process Demo.ticket
           [Demo.quarter; Demo.half; Demo.quarter] Demo.reply); reflexivity.
Defined.

(** X4. With one non-NaN probability per distinct class, a response is
    flagged for review exactly when every entry of its [proba] mapping is
    below the threshold; when it is not flagged, the entry of the returned
    [priority] itself is not below the threshold. *)
Theorem review_flag_iff_every_entry_below
    (d : str -> option Sk.Estimator) (s : Process) (p : Payload)
    (probs : list float) (r : Response) :
  startup d = Ok s ->
  Sk.predict_proba (pipe s) (frame p) = Ok probs ->
  Contract.row_ok (Sk.classes_ (pipe s)) probs = true ->
  snd (predict p s) = Ok r ->
  (needs_review r = true <->
   forall l v, dict_get (proba r) l = Some v -> flt v thresh_literal = true) /\
  (needs_review r = false ->
   exists v, dict_get (proba r) (priority r) = Some v /\ flt v thresh_literal = false).
Proof.
  intros Hstart Hrow Hok Hres.
  destruct (Serving.response_fields d s p probs r Hstart Hrow Hok Hres)
    as (m & i & Hmax & Harg & Hlab & _ & Hproba & Hnr & _).
  destruct (AppFacts.row_ok_inv _ _ Hok) as (Hnd & Hlen & Hne & Hnan).
  destruct (NpFacts.argmax_max probs Hne Hnan)
    as (i' & m' & Harg' & Hmax' & Hnth & Hle & _).
  rewrite Harg in Harg'. rewrite Hmax in Hmax'.
  inversion Harg'; inversion Hmax'; subst i' m'.
  assert (Hown : dict_get (proba r) (priority r) = Some m).
  { rewrite Hproba. apply (DictFacts.dict_get_combine _ _ i); assumption. }
  rewrite Hnr. split; [split|].
  - intros Hm l v Hget. rewrite Hproba in Hget.
    destruct (DictFacts.dict_get_combine_inv _ _ _ _ Hget) as (j & _ & Hj).
    pose proof (Hle j v Hj) as Hv.
    apply (FloatOrderFacts.fle_flt_trans v m); try assumption.
    apply (FloatOrderFacts.fle_not_nan _ _ Hv).
  - intros Hall. apply (Hall _ _ Hown).
  - intros Hm. exists m. split; assumption.
Qed.

Lemma review_flag_iff_every_entry_below_witness :
  (needs_review Demo.reply = true <->
   forall l v, dict_get (proba Demo.reply) l = Some v -> flt v thresh_literal = true) /\
  (needs_review Demo.reply = false ->
   exists v, dict_get (proba Demo.reply) (priority Demo.reply) = Some v /\
             flt v thresh_literal = false).
Proof.
  apply (review_flag_iff_every_entry_below Demo.disk Demo.process Demo.ticket
           [Demo.quarter; Demo.half; Demo.quarter] Demo.reply); reflexivity.
Defined.

(** X5. Whatever labels and row the loaded object has, the [proba] mapping
    of a response has pairwise distinct keys, its keys are the labels that
    the zip with the row reaches, and each key holds the probability zipped
    with its last occurrence. *)
Theorem proba_keeps_last_value_per_label
    (s : Process) (p : Payload) (probs : list float) (r : Response) :
  Sk.predict_proba (pipe s) (frame p) = Ok probs ->
  snd (predict p s) = Ok r ->
  NoDup (keys (proba r)) /\
  (forall k, In k (keys (proba r)) <-> In k (map fst (combine (LABELS s) probs))) /\
  (forall k, dict_get (proba r) k = Items.last_value (combine (LABELS s) probs) k).
Proof.
  intros Hrow Hres.
  destruct (AppFacts.predict_inv _ _ _ Hres)
    as (probs' & m & i & H1 & _ & _ & _ & _ & Hproba & _).
  rewrite Hrow in H1. inversion H1; subst probs'. rewrite Hproba.
  unfold dict_of_items, Items.last_value.
  split; [|split].
  - apply (ResponseFacts.fold_dict_set (combine (LABELS s) probs) [] []). constructor.
  - intros k.
    destruct (ResponseFacts.fold_dict_set (combine (LABELS s) probs) [] k (NoDup_nil _))
      as (_ & H & _).
    cbn zeta in H. rewrite H. simpl. tauto.
  - intros k.
    destruct (ResponseFacts.fold_dict_set (combine (LABELS s) probs) [] k (NoDup_nil _))
      as (_ & _ & H).
    exact H.
Qed.

Lemma proba_keeps_last_value_per_label_witness :
  NoDup (keys (proba DemoEdge.repeated_reply)) /\
  (forall k, In k (keys (proba DemoEdge.repeated_reply)) <->
             In k (map fst (combine (LABELS (DemoEdge.process_of DemoEdge.repeated_estimator))
                                    [Demo.quarter; Demo.half; f0]))) /\
  (forall k, dict_get (proba DemoEdge.repeated_reply) k
             = Items.last_value
                 (combine (LABELS (DemoEdge.process_of DemoEdge.repeated_estimator))
                          [Demo.quarter; Demo.half; f0]) k).
Proof.
  apply (proba_keeps_last_value_per_label
           (DemoEdge.process_of DemoEdge.repeated_estimator) Demo.ticket
           [Demo.quarter; Demo.half; f0] DemoEdge.repeated_reply); reflexivity.
Defined.

(** X6. Requests do not influence one another: the answers to a sequence
    of requests are the answers each request gets on its own. *)
Theorem serve_answers_each_request_alone (reqs : list Payload) (s : Process) :
  snd (serve reqs s) = map (fun p => snd (predict p s)) reqs.
Proof.
  induction reqs as [|p rest IH]; simpl; [reflexivity|].
  pose proof (AppFacts.predict_preserves p s) as Hp.
  destruct (predict p s) as [s1 r]. simpl in Hp. subst s1.
  destruct (serve rest s) as [s2 rs]. simpl in IH. simpl. rewrite IH. reflexivity.
Qed.

End ResponseShape.

(** ** The saved transformer on any payload *)

Module TransformerShape.

Import Py App.


(** X8. The saved pipeline cannot tell unknown categories apart: two
    payloads that agree on text and numbers, and whose [domain] (and
    likewise [vip]) are either equal or both unknown to the encoder, get
    the same outcome from the handler. *)
Theorem unknown_categories_answered_alike
    (l : TrainPriority.Learned) (s : Process) (p1 p2 : Payload) :
  pipe s = Sk.estimator_of (TrainPriority.pipe l) ->
  text p1 = text p2 ->
  spend30d p1 = spend30d p2 ->
  eta_to_sla_min p1 = eta_to_sla_min p2 ->
  (domain p1 = domain p2 \/
   (Sk.known str_eqb (TrainPriority.learned_domains l) (domain p1) = false /\
    Sk.known str_eqb (TrainPriority.learned_domains l) (domain p2) = false)) ->
  (vip p1 = vip p2 \/
   (Sk.known Z.eqb (TrainPriority.learned_vips l) (vip p1) = false /\
    Sk.known Z.eqb (TrainPriority.learned_vips l) (vip p2) = false)) ->
  predict p1 s = predict p2 s.
Proof.
  intros Hpipe Ht Hs He Hd Hv.
  apply ResponseFacts.predict_congr. rewrite Hpipe.
  cbn [Sk.estimator_of Sk.predict_proba]. unfold Sk.pipeline_predict_proba.
  f_equal. unfold Sk.ct_transform, Sk.onehot_transform.
  cbn [TrainPriority.pipe Sk.pre TrainPriority.pre Sk.ct_cat Sk.ct_tfidf Sk.ct_num
       Sk.handle_unknown Sk.categories_domain Sk.categories_vip
       frame Sk.col_text Sk.col_domain Sk.col_vip Sk.col_spend30d
       Sk.col_eta_to_sla_min].
  rewrite Ht, Hs, He.
  assert (Ed : Sk.encode_column str_eqb Sk.HandleIgnore
                 (TrainPriority.learned_domains l) (domain p1)
               = Sk.encode_column str_eqb Sk.HandleIgnore
                   (TrainPriority.learned_domains l) (domain p2)).
  { destruct Hd as [->|[H1 H2]]; [reflexivity|].
    unfold Sk.encode_column. rewrite H1, H2. reflexivity. }
  assert (Ev : Sk.encode_column Z.eqb Sk.HandleIgnore
                 (TrainPriority.learned_vips l) (vip p1)
               = Sk.encode_column Z.eqb Sk.HandleIgnore
                   (TrainPriority.learned_vips l) (vip p2)).
  { destruct Hv as [->|[H1 H2]]; [reflexivity|].
    unfold Sk.encode_column. rewrite H1, H2. reflexivity. }
  rewrite Ed, Ev. reflexivity.
Qed.

Lemma unknown_categories_answered_alike_witness :
  predict DemoEdge.stray_odd_vip_ticket Demo.process
  = predict DemoEdge.other_odd_vip_ticket Demo.process.
Proof.
  apply (unknown_categories_answered_alike Demo.learned Demo.process
           DemoEdge.stray_odd_vip_ticket DemoEdge.other_odd_vip_ticket);
    [reflexivity | reflexivity | reflexivity | reflexivity
     | right; split; reflexivity | right; split; reflexivity].
Defined.

End TransformerShape.

(** ** More on cleaned text *)

Module CleanedFacts.

Import Py.

Lemma join_cons_length (sep t : str) (rest : list str) :
  List.length (Text.join sep (t :: rest))
  = (List.length t
     + match rest with
       | [] => 0
       | _ :: _ => List.length sep + List.length (Text.join sep rest)
       end)%nat.
Proof.
  cbn [Text.join]. destruct rest as [|t' rest']; [lia|].
  rewrite !length_app. reflexivity.
Qed.

Lemma join_filter_length (sep : str) (f : str -> bool) (T : list str) :
  (List.length (Text.join sep (filter f T)) <= List.length (Text.join sep T))%nat.
Proof.
  induction T as [|t rest IH]; [reflexivity|].
  rewrite join_cons_length. cbn [filter]. destruct (f t).
  - rewrite join_cons_length.
    destruct (filter f rest) as [|u us] eqn:E; [lia|].
    destruct rest as [|t' rest']; [discriminate E|]. lia.
  - destruct rest as [|t' rest']; [cbn; lia|]. lia.
Qed.

Lemma join_nil (sep : str) (T : list str) :
  (forall t, In t T -> t <> []) -> Text.join sep T = [] -> T = [].
Proof.
  destruct T as [|t rest]; [reflexivity|]. intros Hne H. exfalso.
  apply (Hne t (or_introl eq_refl)).
  cbn [Text.join] in H. destruct rest; [exact H|].
  apply app_eq_nil in H. apply H.
Qed.

Lemma filter_nil {A : Type} (f : A -> bool) (L : list A) :
  filter f L = [] <-> forallb (fun x => negb (f x)) L = true.
Proof.
  induction L as [|x L IH]; simpl; [tauto|].
  destruct (f x); simpl; [split; discriminate|exact IH].
Qed.

Lemma forallb_negb_negb {A : Type} (f : A -> bool) (l : list A) :
  forallb (fun x => negb (negb (f x))) l = forallb f l.
Proof.
  induction l as [|x l IH]; simpl; [reflexivity|].
  rewrite negb_involutive, IH. reflexivity.
Qed.

Section Tables.

Variable rt : Runtime.

Lemma sub_nonword_length (x : str) : forall b,
  (List.length (Text.sub_nonword_from rt b x) <= List.length x)%nat.
Proof.
  induction x as [|c r IH]; intros b; [reflexivity|].
  cbn [Text.sub_nonword_from]. destruct (re_word rt c).
  - cbn [List.length]. specialize (IH false). lia.
  - destruct b; cbn [List.length]; specialize (IH true); lia.
Qed.

Lemma split_join_length (x : str) : forall cur,
  (List.length (Text.join [Text.SPACE] (Text.split_from rt cur x))
   <= List.length cur + List.length x)%nat.
Proof.
  assert (Hflush : forall cur out,
            (List.length (Text.join [Text.SPACE] (Text.flush cur out))
             <= List.length cur + S (List.length (Text.join [Text.SPACE] out)))%nat).
  { intros cur out. destruct cur as [|c cur']; [cbn [Text.flush List.length]; lia|].
    cbn [Text.flush]. rewrite join_cons_length, length_rev.
    destruct out; cbn [List.length]; lia. }
  induction x as [|c r IH]; intros cur; cbn [Text.split_from].
  - destruct cur as [|c cur']; [reflexivity|].
    cbn [Text.flush Text.join]. rewrite length_rev. lia.
  - destruct (str_isspace rt c).
    + specialize (IH []). specialize (Hflush cur (Text.split_from rt [] r)).
      cbn [List.length] in *. lia.
    + specialize (IH (c :: cur)). cbn [List.length] in *. lia.
Qed.

Lemma split_nonempty (x t : str) : In t (Text.split rt x) -> t <> [].
Proof.
  intros H. unfold Text.split in H.
  apply (SecondPass.split_from_tokens rt x [] t
           (fun c (F : In c []) => match F with end) H).
Qed.

(** Cleaning cleaned text: what the second pass does, step by step. *)
Lemma clean_text_again (lowered : char -> bool) (s : str) :
  Cleaned.tables_ok rt lowered ->
  TrainModel.clean_text rt (TrainModel.clean_text rt s) = TrainModel.clean_text rt s.
Proof.
  intros (Hlow1 & Hlow2 & Hsp_low & Hsp_word & Hsp_white).
  unfold TrainModel.clean_text at 2 3.
  change (lit " ") with [Text.SPACE].
  set (keep := fun w => negb (Text.contains (TrainModel.spanish_stopwords rt) w)).
  set (T := filter keep (Text.split rt (Text.sub_nonword rt (str_lower rt s)))).
  assert (HT : forallb (Cleaned.token rt) T = true).
  { apply forallb_forall. intros t Ht. apply filter_In in Ht. destruct Ht as [Ht _].
    apply (SecondPass.split_sub_tokens rt Hsp_white _ _ Ht). }
  assert (Hlowered : forallb lowered (Text.join [Text.SPACE] T) = true).
  { apply forallb_forall. intros c Hc.
    destruct (SecondPass.join_chars T c Hc) as [->|(t & Ht & Hct)]; [exact Hsp_low|].
    apply filter_In in Ht. destruct Ht as [Ht _].
    destruct (SecondPass.split_sub_tokens rt Hsp_white _ _ Ht) as [_ Hin].
    specialize (Hlow1 s). rewrite forallb_forall in Hlow1. apply Hlow1, Hin, Hct. }
  unfold TrainModel.clean_text. change (lit " ") with [Text.SPACE].
  rewrite (Hlow2 _ Hlowered). unfold Text.sub_nonword.
  rewrite (SecondPass.sub_nonword_join rt Hsp_word T HT false).
  rewrite (SecondPass.split_join rt Hsp_white T HT).
  fold keep. unfold T. rewrite InferenceClaims.filter_idem. reflexivity.
Qed.

End Tables.

End CleanedFacts.

Module CleanedText.

Import Py.

(** X9. The cleaned text is empty exactly when every token of the
    lowercased text is a stop word (in particular when it has no token). *)
Theorem clean_text_empty_iff_only_stopwords (rt : Runtime) (s : str) :
  TrainModel.clean_text rt s = [] <->
  forallb (Text.contains (TrainModel.spanish_stopwords rt))
          (Text.split rt (Text.sub_nonword rt (str_lower rt s))) = true.
Proof.
  unfold TrainModel.clean_text.
  set (L := Text.split rt (Text.sub_nonword rt (str_lower rt s))).
  set (keep := fun w => negb (Text.contains (TrainModel.spanish_stopwords rt) w)).
  assert (Hiff : filter keep L = [] <->
                 forallb (Text.contains (TrainModel.spanish_stopwords rt)) L = true).
  { rewrite CleanedFacts.filter_nil. unfold keep.
    assert (E : forall l,
              forallb (fun x => negb (negb (Text.contains (TrainModel.spanish_stopwords rt) x))) l
              = forallb (Text.contains (TrainModel.spanish_stopwords rt)) l).
    { induction l as [|x l IHl]; simpl; [reflexivity|].
      rewrite negb_involutive, IHl. reflexivity. }
    rewrite E. tauto. }
  split.
  - intros H. apply Hiff. apply (CleanedFacts.join_nil (lit " ")); [|exact H].
    intros t Ht. apply filter_In in Ht. destruct Ht as [Ht _].
    apply (CleanedFacts.split_nonempty rt _ _ Ht).
  - intros H. apply Hiff in H. rewrite H. reflexivity.
Qed.

(** X10. Where the space counts as white space, the cleaned text has no
    leading, trailing or repeated white space: splitting it and joining
    the pieces with single spaces gives it back. *)
Theorem clean_text_is_space_normal (rt : Runtime) (s : str) :
  str_isspace rt Text.SPACE = true ->
  Text.join (lit " ") (Text.split rt (TrainModel.clean_text rt s))
  = TrainModel.clean_text rt s.
Proof.
  intros Hwhite. unfold TrainModel.clean_text.
  change (lit " ") with [Text.SPACE].
  set (keep := fun w => negb (Text.contains (TrainModel.spanish_stopwords rt) w)).
  set (T := filter keep (Text.split rt (Text.sub_nonword rt (str_lower rt s)))).
  assert (HT : forallb (Cleaned.token rt) T = true).
  { apply forallb_forall. intros t Ht. apply filter_In in Ht. destruct Ht as [Ht _].
    apply (SecondPass.split_sub_tokens rt Hwhite _ _ Ht). }
  rewrite (SecondPass.split_join rt Hwhite T HT). reflexivity.
Qed.

Lemma clean_text_is_space_normal_witness :
  Text.join (lit " ")
    (Text.split DemoText.runtime (TrainModel.clean_text DemoText.runtime DemoText.ejemplo))
  = TrainModel.clean_text DemoText.runtime DemoText.ejemplo.
Proof.
  apply (clean_text_is_space_normal DemoText.runtime DemoText.ejemplo). reflexivity.
Defined.

(** X11. The cleaned text is never longer than the lowercased input. *)
Theorem clean_text_not_longer_than_lowercase (rt : Runtime) (s : str) :
  (List.length (TrainModel.clean_text rt s) <= List.length (str_lower rt s))%nat.
Proof.
  unfold TrainModel.clean_text, Text.split, Text.sub_nonword.
  change (lit " ") with [Text.SPACE].
  etransitivity; [apply CleanedFacts.join_filter_length|].
  etransitivity; [apply CleanedFacts.split_join_length|].
  cbn [List.length plus]. apply CleanedFacts.sub_nonword_length.
Qed.

(** X12. Under the facts about the runtime tables that idempotence needs,
    [predict_priority] gives the same outcome on a text and on its cleaned
    form: cleaning the input beforehand changes nothing. *)
Theorem predict_priority_ignores_precleaning
    (rt : Runtime) (lowered : char -> bool)
    (clf : Sk.Classifier) (vectorizer : Sk.TfidfVectorizer) (s : str) :
  Cleaned.tables_ok rt lowered ->
  PredictPriority.predict_priority rt clf vectorizer (PredictPriority.clean_text rt s)
  = PredictPriority.predict_priority rt clf vectorizer s.
Proof.
  intros Hok. unfold PredictPriority.predict_priority.
  change (PredictPriority.clean_text rt) with (TrainModel.clean_text rt).
  rewrite (CleanedFacts.clean_text_again rt lowered s Hok). reflexivity.
Qed.

Lemma predict_priority_ignores_precleaning_witness :
  PredictPriority.predict_priority DemoText.runtime DemoText.forest DemoText.vectorizer
    (PredictPriority.clean_text DemoText.runtime DemoText.ejemplo)
  = PredictPriority.predict_priority DemoText.runtime DemoText.forest DemoText.vectorizer
      DemoText.ejemplo.
Proof.
  apply (predict_priority_ignores_precleaning DemoText.runtime DemoText.ascii_lowered
           DemoText.forest DemoText.vectorizer DemoText.ejemplo).
  exact DemoTextFacts.ascii_tables_ok.
Defined.

(** X13. Texts whose tokens are all stop words (or that have no token at
    all) are indistinguishable to [predict_priority]: any two of them get
    the same outcome. *)
Theorem stopword_only_texts_classified_alike
    (rt : Runtime) (clf : Sk.Classifier) (vectorizer : Sk.TfidfVectorizer)
    (s1 s2 : str) :
  forallb (Text.contains (PredictPriority.spanish_stopwords rt))
          (Text.split rt (Text.sub_nonword rt (str_lower rt s1))) = true ->
  forallb (Text.contains (PredictPriority.spanish_stopwords rt))
          (Text.split rt (Text.sub_nonword rt (str_lower rt s2))) = true ->
  PredictPriority.predict_priority rt clf vectorizer s1
  = PredictPriority.predict_priority rt clf vectorizer s2.
Proof.
  assert (Hempty : forall s,
            forallb (Text.contains (PredictPriority.spanish_stopwords rt))
                    (Text.split rt (Text.sub_nonword rt (str_lower rt s))) = true ->
            PredictPriority.clean_text rt s = []).
  { intros s H. unfold PredictPriority.clean_text.
    replace (filter _ _) with (@nil str); [reflexivity|].
    symmetry. apply CleanedFacts.filter_nil.
    rewrite <- H. apply CleanedFacts.forallb_negb_negb. }
  intros H1 H2. unfold PredictPriority.predict_priority.
  rewrite (Hempty s1 H1), (Hempty s2 H2). reflexivity.
Qed.

Lemma stopword_only_texts_classified_alike_witness :
  PredictPriority.predict_priority DemoText.runtime DemoText.forest DemoText.vectorizer
    (lit "El de la... NO!")
  = PredictPriority.predict_priority DemoText.runtime DemoText.forest DemoText.vectorizer
      (lit " ?? ").
Proof.
  apply (stopword_only_texts_classified_alike DemoText.runtime DemoText.forest
           DemoText.vectorizer (lit "El de la... NO!") (lit " ?? ")); reflexivity.
Defined.

End CleanedText.
